(** * CloudStash: the Manta storage driver

    A shallow embedding of the Manta driver of CloudStash (the module that
    exports [function(params)] and returns the [driver] object) together with
    the properties of its path construction and of its callback protocol.

    The driver is written in continuation-passing style over the [manta]
    client and Node's [path] module.  The embedding keeps that shape:

    - [Path]   : the parts of Node's [path.posix] the driver calls
                 ([normalize], [join], [dirname]) and the regular expression of
                 [toSafeLocalPath], over [string];
    - [Js]     : parameter slots ([undefined], [null], a value), error objects,
                 Manta descriptors and Dropbox style entries;
    - [Driver] : the eight operations, each taking its completion callback,
                 in a small state-and-exception monad whose state is the
                 backend world and the trace of client calls and callback
                 invocations.

    JavaScript strings are modelled by [string] (one [ascii] per code unit),
    which is exact for the ASCII paths the properties talk about.  Calls to the
    logger are not part of the functional behaviour and are left out. *)

From Stdlib Require Import List Bool Arith Lia.
From Stdlib Require Import Strings.Ascii Strings.String.
Import ListNotations.

Open Scope string_scope.
Open Scope list_scope.

(* ------------------------------------------------------------------------- *)
(** ** Node's [path.posix] *)

Module Path.

(** [isPosixPathSeparator]: the forward slash only. *)
Definition isPathSeparator (c : ascii) : bool := Ascii.eqb c "/".

(** The segments between forward slashes, as [s.split('/')] gives them: a
    string with [n] slashes has [n + 1] segments, some possibly empty. *)
Fixpoint splitSegments (s : string) : list string :=
  match s with
  | EmptyString => [EmptyString]
  | String c rest =>
      if isPathSeparator c then EmptyString :: splitSegments rest
      else match splitSegments rest with
           | [] => [String c EmptyString]
           | seg :: segs => String c seg :: segs
           end
  end.

(** [segs.join('/')]. *)
Definition joinSegments (segs : list string) : string := String.concat "/" segs.

Definition startsWithSeparator (s : string) : bool :=
  match s with
  | String c _ => isPathSeparator c
  | EmptyString => false
  end.

Fixpoint endsWithSeparator (s : string) : bool :=
  match s with
  | EmptyString => false
  | String c EmptyString => isPathSeparator c
  | String _ rest => endsWithSeparator rest
  end.

(** The loop of [normalizeString], one path segment at a time.  [res] is the
    result built so far with its last segment first.  An empty segment and
    [.] are skipped; [..] removes the last segment of [res] unless [res] is
    empty or ends in [..], in which case [..] is kept when [allowAboveRoot]
    and dropped otherwise; any other segment is appended. *)
Fixpoint normalizeSegments (allowAboveRoot : bool) (res segs : list string)
  : list string :=
  match segs with
  | [] => res
  | seg :: rest =>
      if (seg =? "") || (seg =? ".") then
        normalizeSegments allowAboveRoot res rest
      else if seg =? ".." then
        match res with
        | top :: below =>
            if top =? ".." then
              normalizeSegments allowAboveRoot
                (if allowAboveRoot then ".." :: res else res) rest
            else normalizeSegments allowAboveRoot below rest
        | [] =>
            normalizeSegments allowAboveRoot
              (if allowAboveRoot then [".."] else []) rest
        end
      else normalizeSegments allowAboveRoot (seg :: res) rest
  end.

Definition normalizeString (path : string) (allowAboveRoot : bool) : string :=
  joinSegments (rev (normalizeSegments allowAboveRoot [] (splitSegments path))).

(** [path.posix.normalize]. *)
Definition normalize (path : string) : string :=
  if path =? "" then "."
  else
    let isAbsolute := startsWithSeparator path in
    let trailingSeparator := endsWithSeparator path in
    let path' := normalizeString path (negb isAbsolute) in
    if path' =? "" then
      if isAbsolute then "/" else if trailingSeparator then "./" else "."
    else
      (if isAbsolute then "/" else "")
        ++ path' ++ (if trailingSeparator then "/" else "").

(** [path.posix.join]: the non-empty arguments joined by a slash, then
    normalized; [.] when there is none. *)
Definition join (args : list string) : string :=
  match filter (fun arg => negb (arg =? "")) args with
  | [] => "."
  | parts => normalize (joinSegments parts)
  end.

Fixpoint dropWhile {A : Type} (p : A -> bool) (l : list A) : list A :=
  match l with
  | [] => []
  | x :: rest => if p x then dropWhile p rest else l
  end.

(** [path.dirname], which the driver calls without [posix] and which is
    [path.posix.dirname] on a POSIX host.  The loop runs from the last
    character down to the character of index 1: it passes the trailing
    slashes, then the last segment, and stops on the slash before it, at
    index [end]. *)
Definition dirname (path : string) : string :=
  match list_ascii_of_string path with
  | [] => "."
  | first :: others =>
      let hasRoot := isPathSeparator first in
      let seen := dropWhile (fun c => negb (isPathSeparator c))
                    (dropWhile isPathSeparator (rev others)) in
      match seen with
      | [] => if hasRoot then "/" else "."
      | _ :: before =>
          if hasRoot && (List.length before =? 0)%nat then "//"
          else string_of_list_ascii (first :: rev before)
      end
  end.

(** The regular expression [/^(\.\.[\/\\])+/] replaced by the empty string:
    every leading [..] that is followed by a slash or a backslash goes. *)
Definition isSlashOrBackslash (c : ascii) : bool :=
  Ascii.eqb c "/" || Ascii.eqb c "\".

Fixpoint stripLeadingDotDots (s : string) : string :=
  match s with
  | String "." (String "." (String c rest)) =>
      if isSlashOrBackslash c then stripLeadingDotDots rest else s
  | _ => s
  end.

(** The segments of a path that name something: not empty, not [.]. *)
Definition namedSegment (seg : string) : bool :=
  negb ((seg =? "") || (seg =? ".")).

Definition pathSegments (p : string) : list string :=
  filter namedSegment (splitSegments p).

Definition hasDotDotSegment (p : string) : bool :=
  existsb (fun seg => seg =? "..") (splitSegments p).

(** A string without a forward slash, and a plain name: one segment that is
    neither empty nor [.] nor [..]. *)
Fixpoint slashFree (s : string) : bool :=
  match s with
  | EmptyString => true
  | String c rest => negb (isPathSeparator c) && slashFree rest
  end.

Definition plainName (s : string) : bool :=
  slashFree s && namedSegment s && negb (s =? "..").

(** What [normalizeSegments] keeps: segments that are named and free of
    slashes. *)
Definition keptSegment (seg : string) : Prop :=
  slashFree seg = true /\ namedSegment seg = true.

Fixpoint isPrefixOf (xs ys : list string) : bool :=
  match xs, ys with
  | [], _ => true
  | x :: xs', y :: ys' => (x =? y) && isPrefixOf xs' ys'
  | _ :: _, [] => false
  end.

End Path.

(* ------------------------------------------------------------------------- *)
(** ** JavaScript values the driver handles *)

Module Js.

(** A parameter slot of a callback: nothing was passed ([undefined]), [null]
    was passed, or a value. *)
Inductive Arg (A : Type) : Type :=
| Undefined
| Null
| Val (a : A).
Arguments Undefined {A}.
Arguments Null {A}.
Arguments Val {A} a.

(** An error object of the manta client; the driver only reads [code]. *)
Record Err : Type := { code : string; message : string }.

(** What the manta client hands to its callback.  It follows Node's
    convention: [cb(err)] on failure, which leaves the second parameter
    [undefined], and [cb(null, value)] on success.  For [get], whose second
    parameter the driver passes on, what the client puts in the place of
    the stream when it fails is modelled apart, by [Absent]. *)
Inductive Reply (A : Type) : Type :=
| Failed (e : Err)
| Done (a : A).
Arguments Failed {A} e.
Arguments Done {A} a.

Definition errOf {A : Type} (r : Reply A) : Arg Err :=
  match r with
  | Failed e => Val e
  | Done _ => Null
  end.

Definition valueOf {A : Type} (r : Reply A) : Arg A :=
  match r with
  | Failed _ => Undefined
  | Done a => Val a
  end.

(** What a failing [get] passes where the stream would be: nothing
    ([cb(err)], so that the parameter is [undefined]) or [null]
    ([cb(err, null)], as the manta client does). *)
Inductive Absent : Type :=
| NotPassed
| PassedNull.

Definition absentArg {A : Type} (a : Absent) : Arg A :=
  match a with
  | NotPassed => Undefined
  | PassedNull => Null
  end.

(** A Manta descriptor, as [ls] emits it and as the driver builds it from
    object literals; [size] is [None] when the property is absent. *)
Record MantaEntry : Type :=
  { m_name : string; m_type : string; m_size : option nat }.

(** The Dropbox form of an entry; [tag] is the [".tag"] property. *)
Record Entry : Type :=
  { name : string; tag : string; size : option nat }.

(** The result of [client.info]. *)
Record Info : Type :=
  { info_name : string; extension : string; info_size : nat }.

(** The event emitter [client.ls] passes on success: the ['object'] and
    ['directory'] events in arrival order, then ['end'] or ['error']. *)
Inductive Arrival : Type :=
| ObjectEvent (obj : MantaEntry)
| DirectoryEvent (dir : MantaEntry).

Inductive Ending : Type :=
| End
| StreamError (e : Err).

Record Listing : Type := { arrivals : list Arrival; ending : Ending }.

(** The readable stream of [client.get] (the bytes it will deliver) and the
    writable stream of [client.createWriteStream] (the path it writes). *)
Record ReadStream : Type := { content : string }.
Record WriteStream : Type := { target : string }.

(** The caller of every operation: account and application. *)
Record User : Type := { account_id : string; app_id : string }.

(** The construction parameters the operations read. *)
Record Params : Type := { basePath : string; user : string }.

(** A call on the manta client, with its arguments. *)
Inductive Call : Type :=
| Mkdirp (p : string)
| Ls (p : string)
| Get (p : string)
| CreateWriteStream (p : string)
| Ln (src dst : string)
| Unlink (p : string)
| InfoOf (p : string)
| CreateUpload (p : string) (account : string).

(** What an operation does that can be seen from outside: the calls it issues
    on the client and the invocations of the caller's callback. *)
Inductive Event (R : Type) : Type :=
| Requested (c : Call)
| CalledBack (err : Arg Err) (result : Arg R).
Arguments Requested {R} c.
Arguments CalledBack {R} err result.

Inductive Exn : Type :=
| TypeError.

End Js.

Import Js.

(* ------------------------------------------------------------------------- *)
(** ** The monad of the driver: backend world, trace, exceptions *)

Module Run.

Record State (W R : Type) : Type :=
  { world : W; trace : list (Event R) }.
Arguments world {W R} s.
Arguments trace {W R} s.

Inductive Result (A : Type) : Type :=
| Returned (a : A)
| Threw (x : Exn).
Arguments Returned {A} a.
Arguments Threw {A} x.

Definition M (W R A : Type) : Type := State W R -> Result A * State W R.

Definition ret {W R A : Type} (a : A) : M W R A :=
  fun st => (Returned a, st).

Definition bind {W R A B : Type} (m : M W R A) (k : A -> M W R B) : M W R B :=
  fun st =>
    match m st with
    | (Returned a, st') => k a st'
    | (Threw x, st') => (Threw x, st')
    end.

Definition throw {W R A : Type} (x : Exn) : M W R A :=
  fun st => (Threw x, st).

(** Appends one event to the trace. *)
Definition emit {W R : Type} (ev : Event R) : M W R unit :=
  fun st => (Returned tt, {| world := world st; trace := trace st ++ [ev] |}).

(** Runs a backend operation on the world. *)
Definition perform {W R A : Type} (op : W -> A * W) : M W R A :=
  fun st =>
    let (a, w) := op (world st) in
    (Returned a, {| world := w; trace := trace st |}).

Definition start {W R : Type} (w : W) : State W R :=
  {| world := w; trace := [] |}.

(** The callback invocations of a trace, and the client calls of a trace. *)
Fixpoint callbacksOf {R : Type} (t : list (Event R)) : list (Arg Err * Arg R) :=
  match t with
  | [] => []
  | CalledBack err result :: rest => (err, result) :: callbacksOf rest
  | Requested _ :: rest => callbacksOf rest
  end.

Fixpoint requestsOf {R : Type} (t : list (Event R)) : list Call :=
  match t with
  | [] => []
  | Requested c :: rest => c :: requestsOf rest
  | CalledBack _ _ :: rest => requestsOf rest
  end.

(** An operation run on a backend world from an empty trace, and what can be
    read off the run. *)
Definition run {W R A : Type} (m : M W R A) (w : W) : Result A * State W R :=
  m (start w).

Definition outcome {W R A : Type} (m : M W R A) (w : W) : Result A :=
  fst (run m w).

Definition finalWorld {W R A : Type} (m : M W R A) (w : W) : W :=
  world (snd (run m w)).

Definition callbacks {W R A : Type} (m : M W R A) (w : W)
  : list (Arg Err * Arg R) :=
  callbacksOf (trace (snd (run m w))).

Definition requests {W R A : Type} (m : M W R A) (w : W) : list Call :=
  requestsOf (trace (snd (run m w))).

End Run.

Import Run.

Notation "m1 ;; m2" := (bind m1 (fun _ => m2))
  (at level 61, right associativity).
Notation "x <- m1 ;; m2" := (bind m1 (fun x => m2))
  (at level 61, m1 at next level, right associativity).

(* ------------------------------------------------------------------------- *)
(** ** The driver *)

Module Driver.

(** The manta client as the driver uses it: each operation acts on the
    backend world and answers with a [Reply]; [streamOnFailure] is what
    [get] passes in the place of the stream when it answers with an
    error. *)
Record Backend (W : Type) : Type :=
  { mkdirp : string -> W -> Reply unit * W;
    ls : string -> W -> Reply Listing * W;
    get : string -> W -> Reply ReadStream * W;
    streamOnFailure : string -> W -> Absent;
    createWriteStream : string -> W -> WriteStream * W;
    ln : string -> string -> W -> Reply unit * W;
    unlink : string -> W -> Reply unit * W;
    info : string -> W -> Reply Info * W;
    createUpload : string -> string -> W -> Reply string * W }.
Arguments mkdirp {W} b p w.
Arguments ls {W} b p w.
Arguments get {W} b p w.
Arguments streamOnFailure {W} b p w.
Arguments createWriteStream {W} b p w.
Arguments ln {W} b src dst w.
Arguments unlink {W} b p w.
Arguments info {W} b p w.
Arguments createUpload {W} b p account w.

Definition provider : string := "manta".

Section Operations.

Variable W : Type.
Variable client : Backend W.
Variable params : Params.

(** The completion callback of an operation whose result has type [R]. *)
Definition Callback (R : Type) : Type := Arg Err -> Arg R -> M W R unit.

(** The callback that records how it is invoked. *)
Definition observe {R : Type} : Callback R :=
  fun err result => emit (CalledBack err result).

(** The client's operations in the style the driver calls them: the request
    is issued, then the continuation receives [(err, value)]. *)
Definition client_mkdirp {R : Type} (p : string)
  (k : Arg Err -> M W R unit) : M W R unit :=
  emit (Requested (Mkdirp p)) ;;
  r <- perform (mkdirp client p) ;;
  k (errOf r).

Definition client_ls {R : Type} (p : string)
  (k : Arg Err -> Arg Listing -> M W R unit) : M W R unit :=
  emit (Requested (Ls p)) ;;
  r <- perform (ls client p) ;;
  k (errOf r) (valueOf r).

Definition client_get {R : Type} (p : string)
  (k : Arg Err -> Arg ReadStream -> M W R unit) : M W R unit :=
  emit (Requested (Get p)) ;;
  absent <- perform (fun w => (streamOnFailure client p w, w)) ;;
  r <- perform (get client p) ;;
  k (errOf r)
    (match r with
     | Failed _ => absentArg absent
     | Done stream => Val stream
     end).

Definition client_createWriteStream {R : Type} (p : string)
  : M W R WriteStream :=
  emit (Requested (CreateWriteStream p)) ;;
  perform (createWriteStream client p).

Definition client_ln {R : Type} (src dst : string)
  (k : Arg Err -> M W R unit) : M W R unit :=
  emit (Requested (Ln src dst)) ;;
  r <- perform (ln client src dst) ;;
  k (errOf r).

Definition client_unlink {R : Type} (p : string)
  (k : Arg Err -> M W R unit) : M W R unit :=
  emit (Requested (Unlink p)) ;;
  r <- perform (unlink client p) ;;
  k (errOf r).

Definition client_info {R : Type} (p : string)
  (k : Arg Err -> Arg Info -> M W R unit) : M W R unit :=
  emit (Requested (InfoOf p)) ;;
  r <- perform (info client p) ;;
  k (errOf r) (valueOf r).

Definition client_createUpload {R : Type} (p account : string)
  (k : Arg Err -> Arg string -> M W R unit) : M W R unit :=
  emit (Requested (CreateUpload p account)) ;;
  r <- perform (createUpload client p account) ;;
  k (errOf r) (valueOf r).

(** [toSafeLocalPath]. *)
Definition safeFilename (fileName : string) : string :=
  Path.stripLeadingDotDots (Path.normalize fileName).

Definition toSafeLocalPath (user : User) (fileName : string) : string :=
  let safeFilename := safeFilename fileName in
  let filePath :=
    Path.join [basePath params; account_id user; app_id user; safeFilename] in
  filePath.

(** [getEntryDetails]. *)
Definition getEntryDetails (mantaEntry : MantaEntry) : Entry :=
  {| name := m_name mantaEntry;
     tag := if m_type mantaEntry =? "object" then "file" else "folder";
     size := m_size mantaEntry |}.

Definition createDirectory (user : User) (dirPath : string)
  (callback : Callback Entry) : M W Entry unit :=
  let fullPath := toSafeLocalPath user dirPath in
  client_mkdirp fullPath (fun err =>
    match err with
    | Val e => callback (Val e) Undefined
    | _ =>
        let entry :=
          {| m_name := dirPath; m_type := "directory"; m_size := None |} in
        callback Null (Val (getEntryDetails entry))
    end).

(** The listeners [listDirectory] registers on the emitter, and the emitter
    delivering its events to them: ['object'] and ['directory'] push onto
    [entries], ['error'] and ['end'] call back. *)
Definition onArrival (entries : list Entry) (a : Arrival) : list Entry :=
  match a with
  | ObjectEvent obj => entries ++ [getEntryDetails obj]
  | DirectoryEvent dir => entries ++ [getEntryDetails dir]
  end.

Definition deliver (res : Listing) (entries : list Entry)
  (callback : Callback (list Entry)) : M W (list Entry) unit :=
  let entries := fold_left onArrival (arrivals res) entries in
  match ending res with
  | StreamError err => callback (Val err) Undefined
  | End => callback Null (Val entries)
  end.

Definition listDirectory (user : User) (dirpath : string)
  (callback : Callback (list Entry)) : M W (list Entry) unit :=
  let fullPath := toSafeLocalPath user dirpath in
  client_ls fullPath (fun err res =>
    let entries := [] in
    match err with
    | Val e =>
        if (code e =? "NOTFOUND") || (dirpath =? "") then
          callback Null (Val entries)
        else callback (Val e) Undefined
    | _ => ret tt
    end ;;
    match res with
    | Val emitter => deliver emitter entries callback
    | _ => throw TypeError
    end).

Definition getObject (user : User) (filename : string)
  (callback : Callback ReadStream) : M W ReadStream unit :=
  let filePath := toSafeLocalPath user filename in
  client_get filePath (fun err stream =>
    match err with
    | Val e =>
        if code e =? "ResourceNotFound" then callback Null Null
        else callback (Val e) Undefined
    | _ => ret tt
    end ;;
    callback Null stream).

Definition putObject (user : User) (filename : string)
  (callback : Callback WriteStream) : M W WriteStream unit :=
  let filePath := toSafeLocalPath user filename in
  client_mkdirp (Path.dirname filePath) (fun err =>
    match err with
    | Val e => callback (Val e) Undefined
    | _ =>
        stream <- client_createWriteStream filePath ;;
        callback Null (Val stream)
    end).

Definition copyObject (user : User) (filename newFilename : string)
  (callback : Callback Entry) : M W Entry unit :=
  let filePath := toSafeLocalPath user filename in
  let newFilePath := toSafeLocalPath user newFilename in
  client_mkdirp (Path.dirname newFilePath) (fun err =>
    match err with
    | Val e => callback (Val e) Undefined
    | _ =>
        client_ln filePath newFilePath (fun err =>
          match err with
          | Val e => callback (Val e) Undefined
          | _ =>
              let entry :=
                {| m_name := newFilename; m_type := "object";
                   m_size := None |} in
              callback Null (Val (getEntryDetails entry))
          end)
    end).

Definition moveObject (user : User) (filename newFilename : string)
  (callback : Callback Entry) : M W Entry unit :=
  let filePath := toSafeLocalPath user filename in
  let newFilePath := toSafeLocalPath user newFilename in
  client_mkdirp (Path.dirname newFilePath) (fun err =>
    match err with
    | Val e => callback (Val e) Undefined
    | _ =>
        client_ln filePath newFilePath (fun err =>
          match err with
          | Val e => callback (Val e) Undefined
          | _ =>
              client_unlink filePath (fun err =>
                match err with
                | Val e => callback (Val e) Undefined
                | _ =>
                    let entry :=
                      {| m_name := newFilename; m_type := "object";
                         m_size := None |} in
                    callback Null (Val (getEntryDetails entry))
                end)
          end)
    end).

Definition deleteObject (user : User) (filename : string)
  (callback : Callback Entry) : M W Entry unit :=
  let filePath := toSafeLocalPath user filename in
  client_info filePath (fun err info =>
    match err, info with
    | Val e, _ => callback (Val e) Undefined
    | _, Val info =>
        let entry :=
          {| m_name := filename;
             m_type := if extension info =? "directory" then "directory"
                       else "object";
             m_size := None |} in
        client_unlink filePath (fun err =>
          match err with
          | Val e => callback (Val e) Undefined
          | _ => callback Null (Val (getEntryDetails entry))
          end)
    | _, _ => throw TypeError
    end).

Definition startMultipartUpload (_ : User)
  (callback : Callback string) : M W string unit :=
  let tmpPath := Path.join [basePath params; "temp0000"] in
  let account := Js.user params in
  client_createUpload tmpPath account (fun err uploadId =>
    match err with
    | Val e => callback (Val e) Undefined
    | _ => callback Null uploadId
    end).

End Operations.

End Driver.

(* ------------------------------------------------------------------------- *)
(** ** An in-memory backend with fault injection

    A small object store on which the operations can be run: a list of
    nodes, and a list of calls that are made to fail with a chosen error.
    A call that is not made to fail behaves as the store dictates; a path
    that does not exist is reported with the code [ResourceNotFound]. *)

Module MemStore.

Record Node : Type :=
  { node_path : string; node_type : string; node_data : string }.

Record World : Type :=
  { nodes : list Node; faults : list (Call * Err) }.

Definition call_eqb (c1 c2 : Call) : bool :=
  match c1, c2 with
  | Mkdirp p, Mkdirp q => p =? q
  | Ls p, Ls q => p =? q
  | Get p, Get q => p =? q
  | CreateWriteStream p, CreateWriteStream q => p =? q
  | Ln s d, Ln s' d' => (s =? s') && (d =? d')
  | Unlink p, Unlink q => p =? q
  | InfoOf p, InfoOf q => p =? q
  | CreateUpload p a, CreateUpload q b => (p =? q) && (a =? b)
  | _, _ => false
  end.

Definition faultOf (c : Call) (w : World) : option Err :=
  match find (fun f => call_eqb (fst f) c) (faults w) with
  | Some f => Some (snd f)
  | None => None
  end.

Definition lookup (p : string) (w : World) : option Node :=
  find (fun n => node_path n =? p) (nodes w).

Definition exists_at (p : string) (w : World) : bool :=
  match lookup p w with
  | Some _ => true
  | None => false
  end.

Definition notFound (p : string) : Err :=
  {| code := "ResourceNotFound"; message := p |}.

Definition withNodes (w : World) (ns : list Node) : World :=
  {| nodes := ns; faults := faults w |}.

(** An operation that fails when a fault is planned for its call. *)
Definition guarded {A : Type} (c : Call) (op : World -> Reply A * World)
  (w : World) : Reply A * World :=
  match faultOf c w with
  | Some e => (Failed e, w)
  | None => op w
  end.

Definition basename (p : string) : string :=
  last (Path.splitSegments p) "".

Definition descriptor (n : Node) : Arrival :=
  let d := {| m_name := basename (node_path n); m_type := node_type n;
              m_size := Some (String.length (node_data n)) |} in
  if node_type n =? "object" then ObjectEvent d else DirectoryEvent d.

Definition mem_mkdirp (p : string) : World -> Reply unit * World :=
  guarded (Mkdirp p) (fun w =>
    if exists_at p w then (Done tt, w)
    else (Done tt,
          withNodes w (nodes w ++ [{| node_path := p; node_type := "directory";
                                      node_data := "" |}]))).

Definition mem_ls (p : string) : World -> Reply Listing * World :=
  guarded (Ls p) (fun w =>
    match lookup p w with
    | Some _ =>
        (Done {| arrivals :=
                   map descriptor
                     (filter (fun n => Path.dirname (node_path n) =? p)
                        (nodes w));
                 ending := End |}, w)
    | None => (Failed (notFound p), w)
    end).

Definition mem_get (p : string) : World -> Reply ReadStream * World :=
  guarded (Get p) (fun w =>
    match lookup p w with
    | Some n => (Done {| content := node_data n |}, w)
    | None => (Failed (notFound p), w)
    end).

Definition mem_createWriteStream (p : string) (w : World)
  : WriteStream * World :=
  ({| target := p |}, w).

Definition mem_ln (src dst : string) : World -> Reply unit * World :=
  guarded (Ln src dst) (fun w =>
    match lookup src w with
    | Some n =>
        (Done tt,
         withNodes w
           (filter (fun m => negb (node_path m =? dst)) (nodes w)
              ++ [{| node_path := dst; node_type := node_type n;
                     node_data := node_data n |}]))
    | None => (Failed (notFound src), w)
    end).

Definition mem_unlink (p : string) : World -> Reply unit * World :=
  guarded (Unlink p) (fun w =>
    if exists_at p w then
      (Done tt,
       withNodes w (filter (fun m => negb (node_path m =? p)) (nodes w)))
    else (Failed (notFound p), w)).

Definition mem_info (p : string) : World -> Reply Info * World :=
  guarded (InfoOf p) (fun w =>
    match lookup p w with
    | Some n =>
        (Done {| info_name := basename p;
                 extension := if node_type n =? "directory" then "directory"
                              else "bin";
                 info_size := String.length (node_data n) |}, w)
    | None => (Failed (notFound p), w)
    end).

Definition mem_createUpload (p account : string)
  : World -> Reply string * World :=
  guarded (CreateUpload p account) (fun w => (Done "upload-0001", w)).

Definition backend : Driver.Backend World :=
  {| Driver.mkdirp := mem_mkdirp;
     Driver.ls := mem_ls;
     Driver.get := mem_get;
     Driver.streamOnFailure := fun _ _ => PassedNull;
     Driver.createWriteStream := mem_createWriteStream;
     Driver.ln := mem_ln;
     Driver.unlink := mem_unlink;
     Driver.info := mem_info;
     Driver.createUpload := mem_createUpload |}.

(** The configuration and the tenants of the examples. *)
Definition params : Params := {| basePath := "base"; user := "operator" |}.
Definition tenant : User :=
  {| account_id := "AB12CD34EF5678"; app_id := "app1" |}.
Definition otherTenant : User :=
  {| account_id := "0123456789ABCD"; app_id := "app2" |}.

Definition file (p data : string) : Node :=
  {| node_path := p; node_type := "object"; node_data := data |}.
Definition folder (p : string) : Node :=
  {| node_path := p; node_type := "directory"; node_data := "" |}.

Definition todoPath : string := "base/AB12CD34EF5678/app1/notes/todo.txt".
Definition donePath : string := "base/AB12CD34EF5678/app1/archive/done.txt".

(** A store holding one file of [tenant], and no planned fault. *)
Definition populated : World :=
  {| nodes := [folder "base/AB12CD34EF5678/app1";
               folder "base/AB12CD34EF5678/app1/notes";
               file todoPath "buy milk"];
     faults := [] |}.

Definition withFaults (w : World) (fs : list (Call * Err)) : World :=
  {| nodes := nodes w; faults := fs |}.

Definition internalError : Err :=
  {| code := "InternalError"; message := "backend unavailable" |}.

Definition dnsNotFound : Err :=
  {| code := "NOTFOUND"; message := "not found" |}.

End MemStore.

(* ------------------------------------------------------------------------- *)
(** ** The resolved path as the design document words it

    The document describes a shard prefix made of the first three
    two-character groups of the account identifier.  [shardedPath] follows
    those words; it is compared with [Driver.toSafeLocalPath] below. *)

Module Design.

Definition shardPrefix (account : string) : list string :=
  [substring 0 2 account; substring 2 2 account; substring 4 2 account].

Definition shardedPath (base : string) (user : User) (sanitized : string)
  : string :=
  Path.join
    ([base] ++ shardPrefix (account_id user)
       ++ [account_id user; app_id user; sanitized]).

(** A path lies in the subtree of a tenant when its named segments start with
    those of [base/account_id/app_id]. *)
Definition tenantRoot (base : string) (user : User) : list string :=
  Path.pathSegments (Path.normalize base) ++ [account_id user; app_id user].

Definition withinTenant (base : string) (user : User) (p : string) : bool :=
  Path.isPrefixOf (tenantRoot base user) (Path.pathSegments p).

End Design.

(* ------------------------------------------------------------------------- *)
(** ** Runs of the driver on the in-memory backend *)

Module Scenario.

Import MemStore.

Definition tenantDir : string := "base/AB12CD34EF5678/app1".
Definition archiveDir : string := "base/AB12CD34EF5678/app1/archive".

(** A tenant that has written nothing yet: [ls] reports [NOTFOUND]. *)
Definition unused : World :=
  {| nodes := []; faults := [(Ls tenantDir, dnsNotFound)] |}.

Definition lsRootFails : World :=
  withFaults populated [(Ls tenantDir, internalError)].
Definition getFails : World :=
  withFaults populated [(Get todoPath, internalError)].
Definition mkdirpFails : World :=
  withFaults populated [(Mkdirp archiveDir, internalError)].
Definition linkFails : World :=
  withFaults populated [(Ln todoPath donePath, internalError)].
Definition unlinkFails : World :=
  withFaults populated [(Unlink todoPath, internalError)].

Definition listRoot : M World (list Entry) unit :=
  Driver.listDirectory World backend params tenant "" (Driver.observe World).
Definition getTodo : M World ReadStream unit :=
  Driver.getObject World backend params tenant "notes/todo.txt"
    (Driver.observe World).
Definition getMissing : M World ReadStream unit :=
  Driver.getObject World backend params tenant "notes/none.txt"
    (Driver.observe World).
Definition moveTodo : M World Entry unit :=
  Driver.moveObject World backend params tenant "notes/todo.txt"
    "archive/done.txt" (Driver.observe World).
Definition deleteTodo : M World Entry unit :=
  Driver.deleteObject World backend params tenant "notes/todo.txt"
    (Driver.observe World).
Definition deleteMissing : M World Entry unit :=
  Driver.deleteObject World backend params tenant "notes/none.txt"
    (Driver.observe World).

(** Two lists of callback invocations tell two runs apart when they
    differ. *)
Definition distinguishable {R : Type} (obs1 obs2 : list (Arg Err * Arg R))
  : Prop :=
  obs1 <> obs2.

End Scenario.

(* ------------------------------------------------------------------------- *)
(** ** The shape of normalized paths *)

Module Shape.

Import Path.

(** A segment that [normalizeSegments] appended: kept, and not [..]. *)
Definition regularSegment (seg : string) : Prop :=
  keptSegment seg /\ seg <> "..".

(** A segment that names nothing: empty or [.]. *)
Definition unnamedSegment (seg : string) : Prop :=
  seg = "" \/ seg = ".".

(** The result of the loop, last segment first: regular segments above the
    [..] segments, which are there only when [allowAboveRoot]. *)
Definition stackShape (allowAboveRoot : bool) (res : list string) : Prop :=
  exists regs ups,
    res = regs ++ ups
    /\ Forall regularSegment regs
    /\ Forall (fun seg => seg = "..") ups
    /\ (allowAboveRoot = false -> ups = []).

(** Segments that first go up and then never again: some [..], then one
    segment of any form, then segments other than [..]. *)
Inductive Climbing : list string -> Prop :=
| climbing_nil : Climbing []
| climbing_up (rest : list string) :
    Climbing rest -> Climbing (".." :: rest)
| climbing_down (seg : string) (rest : list string) :
    Forall (fun s => s <> "..") rest -> Climbing (seg :: rest).

(** No segment of the path begins with two dots. *)
Definition noDotDotPrefix (p : string) : bool :=
  forallb (fun seg => negb (String.prefix ".." seg)) (splitSegments p).

(** The characters of a path after its last segment: nothing or one slash,
    as [normalize] leaves them. *)
Definition trail (post : string) : Prop := post = "" \/ post = "/".

(** A path lies in the directory of an account when its named segments
    start with those of [base/account_id]. *)
Definition withinAccount (base : string) (user : User) (p : string) : bool :=
  isPrefixOf (pathSegments (normalize base) ++ [account_id user])
    (pathSegments p).

End Shape.

(* ------------------------------------------------------------------------- *)
(** ** Reading a listing *)

Module Listed.

(** The descriptor an event of the emitter carries. *)
Definition described (a : Arrival) : MantaEntry :=
  match a with
  | ObjectEvent obj => obj
  | DirectoryEvent dir => dir
  end.

End Listed.

(* ------------------------------------------------------------------------- *)
(** ** The logger module

    [lib/logger.js] keeps one bunyan logger for the whole application in the
    module variable [mainLogger].  Bunyan itself is a parameter: the logger
    it creates from options, and the child it derives from a logger, or the
    exception with which it refuses the options. *)

Module Logger.

(** A JavaScript object with string properties, in insertion order. *)
Definition Props : Type := list (string * Arg string).

Fixpoint setProp (key : string) (value : Arg string) (obj : Props) : Props :=
  match obj with
  | [] => [(key, value)]
  | (k, v) :: rest =>
      if k =? key then (k, value) :: rest
      else (k, v) :: setProp key value rest
  end.

Fixpoint getProp (key : string) (obj : Props) : Arg string :=
  match obj with
  | [] => Undefined
  | (k, v) :: rest => if k =? key then v else getProp key rest
  end.

(** Truthiness of a string parameter and of an object parameter. *)
Definition truthyString (x : Arg string) : bool :=
  match x with
  | Val s => negb (s =? "")
  | _ => false
  end.

Definition truthyObject {A : Type} (x : Arg A) : bool :=
  match x with
  | Val _ => true
  | _ => false
  end.

Section Bunyan.

Variable Log : Type.
Variable createLogger : Props -> Log.
Variable child : Log -> Props -> Arg bool -> Result Log.

(** [createMainLogger]: the new value of [mainLogger], which is also the
    result.  The configuration is not read. *)
Definition createMainLogger (config : Props) : Arg Log :=
  Val (createLogger [("name", Val "MantaBox")]).

(** [getLogger], given the current [mainLogger]: its result, and the object
    the caller passed as [options] as it is after the call. *)
Definition getLogger (mainLogger : Arg Log) (category : Arg string)
  (options : Arg Props) (simple : Arg bool)
  : Result (Arg Log) * Arg Props :=
  if negb (truthyString category) && negb (truthyObject options) then
    (Returned mainLogger, options)
  else
    let fresh := match options with Val o => o | _ => [] end in
    let options' := setProp "category" category fresh in
    let passed := match options with Val _ => Val options' | _ => options end in
    match mainLogger with
    | Val logger =>
        match child logger options' simple with
        | Returned derived => (Returned (Val derived), passed)
        | Threw x => (Threw x, passed)
        end
    | _ => (Threw TypeError, passed)
    end.

End Bunyan.

(** A bunyan whose loggers are the fields they bind, and whose [child]
    refuses options that carry a name, as bunyan's does. *)
Definition fieldsLogger (options : Props) : Props := options.

Definition fieldsChild (parent options : Props) (_ : Arg bool)
  : Result Props :=
  if truthyString (getProp "name" options) then Threw TypeError
  else
    Returned
      (fold_left (fun acc kv => setProp (fst kv) (snd kv) acc) options parent).

End Logger.

(* ------------------------------------------------------------------------- *)
(** ** The key of the client

    The first lines of the driver pick the private key: [params.key64] when
    given replaces [params.key] by its decoding, and the key store is read
    when [params.key] is then not a non-empty string.  The base64 decoding
    of [Buffer] and [fs.readFileSync] are parameters. *)

Module Setup.

Record KeyParams : Type :=
  { key64 : Arg string; key : Arg string; keyStore : Arg string }.

(** The key in hand, or the exception of [fs.readFileSync]. *)
Inductive KeyResult : Type :=
| Chosen (k : string)
| Raised (reason : string).

Section Key.

Variable decode : string -> string.
Variable readFileSync : Arg string -> KeyResult.

(** [params.key] after the [if (params.key64)] statement. *)
Definition keyAfterDecoding (p : KeyParams) : Arg string :=
  match key64 p with
  | Val encoded =>
      if negb (encoded =? "") then Val (decode encoded) else key p
  | _ => key p
  end.

(** [params.key || fs.readFileSync(params.keyStore, 'utf8')]. *)
Definition chooseKey (p : KeyParams) : KeyResult :=
  match keyAfterDecoding p with
  | Val k => if negb (k =? "") then Chosen k else readFileSync (keyStore p)
  | _ => readFileSync (keyStore p)
  end.

End Key.

(** A file system with one key file, and a decoding that only drops the
    padding characters, for the examples. *)
Definition oneKeyFile (path : Arg string) : KeyResult :=
  match path with
  | Val p => if p =? "/keys/id_rsa" then Chosen "KEY-FROM-FILE"
             else Raised "ENOENT"
  | _ => Raised "ERR_INVALID_ARG_TYPE"
  end.

Fixpoint dropPadding (s : string) : string :=
  match s with
  | EmptyString => EmptyString
  | String c rest =>
      if Ascii.eqb c "=" then dropPadding rest else String c (dropPadding rest)
  end.

End Setup.

(* ------------------------------------------------------------------------- *)
(** ** More runs on the in-memory backend *)

Module Cases.

Import MemStore Scenario.

(** The in-memory backend with the answer of [ls] fixed. *)
Definition listing (answer : Reply Listing) : Driver.Backend World :=
  {| Driver.mkdirp := mem_mkdirp;
     Driver.ls := fun _ w => (answer, w);
     Driver.get := mem_get;
     Driver.streamOnFailure := fun _ _ => PassedNull;
     Driver.createWriteStream := mem_createWriteStream;
     Driver.ln := mem_ln;
     Driver.unlink := mem_unlink;
     Driver.info := mem_info;
     Driver.createUpload := mem_createUpload |}.

(** A client that passes nothing where the stream would be when [get]
    fails. *)
Definition withoutSecond (b : Driver.Backend World) : Driver.Backend World :=
  {| Driver.mkdirp := Driver.mkdirp b;
     Driver.ls := Driver.ls b;
     Driver.get := Driver.get b;
     Driver.streamOnFailure := fun _ _ => NotPassed;
     Driver.createWriteStream := Driver.createWriteStream b;
     Driver.ln := Driver.ln b;
     Driver.unlink := Driver.unlink b;
     Driver.info := Driver.info b;
     Driver.createUpload := Driver.createUpload b |}.

Definition timeout : Err := {| code := "ETIMEDOUT"; message := "timed out" |}.

(** A listing that breaks after one entry. *)
Definition broken : Listing :=
  {| arrivals := [ObjectEvent {| m_name := "todo.txt"; m_type := "object";
                                 m_size := Some 8 |}];
     ending := StreamError timeout |}.

Definition notesDir : string := "base/AB12CD34EF5678/app1/notes".
Definition draftsDir : string := "base/AB12CD34EF5678/app1/drafts".

Definition lsNotesFails : World :=
  withFaults populated [(Ls notesDir, internalError)].
Definition lsNotesNotFound : World :=
  withFaults populated [(Ls notesDir, dnsNotFound)].
Definition mkdirpDraftsFails : World :=
  withFaults populated [(Mkdirp draftsDir, internalError)].
Definition uploadFails : World :=
  withFaults populated
    [(CreateUpload "base/temp0000" "operator", internalError)].

(** A second application of the account of [tenant]. *)
Definition sibling : User :=
  {| account_id := "AB12CD34EF5678"; app_id := "app2" |}.

End Cases.

Import Driver.

(** Symbolic execution of an operation: the monad and the client wrappers are
    unfolded, the paths stay folded. *)
Ltac exec :=
  cbv beta iota zeta delta
    [run outcome finalWorld callbacks requests start bind ret throw emit
     perform observe client_mkdirp client_ls client_get client_ln
     client_unlink client_info client_createUpload client_createWriteStream
     createDirectory listDirectory getObject putObject copyObject moveObject
     deleteObject startMultipartUpload deliver errOf valueOf world trace
     callbacksOf requestsOf fst snd app].

(** Uses the answer of the backend given by hypothesis [H]. *)
Ltac answer H := rewrite H; exec.

(* ------------------------------------------------------------------------- *)
(** * Properties of the path functions *)

(** The functions of [path.posix] on some inputs. *)
Example normalize_ex1 :
  Path.normalize "../../../etc/passwd" = "../../../etc/passwd".
Proof. reflexivity. Qed.
Example normalize_ex2 : Path.normalize "a/./b/../../c/" = "c/".
Proof. reflexivity. Qed.
Example normalize_ex3 : Path.normalize "/a/../../b//c" = "/b/c".
Proof. reflexivity. Qed.
Example normalize_ex4 : Path.normalize "a/.." = ".".
Proof. reflexivity. Qed.
Example normalize_ex5 : Path.normalize "./" = "./".
Proof. reflexivity. Qed.
Example dirname_ex1 :
  Path.dirname "base/acct/app/notes/todo.txt" = "base/acct/app/notes".
Proof. reflexivity. Qed.
Example dirname_ex2 : Path.dirname "/a" = "/".
Proof. reflexivity. Qed.
Example dirname_ex3 : Path.dirname "a//b/" = "a/".
Proof. reflexivity. Qed.
Example dirname_ex4 : Path.dirname "//a" = "//".
Proof. reflexivity. Qed.
Example normalize_doc :
  Path.normalize "/foo/bar//baz/asdf/quux/.." = "/foo/bar/baz/asdf".
Proof. reflexivity. Qed.
Example join_doc :
  Path.join ["/foo"; "bar"; "baz/asdf"; "quux"; ".."] = "/foo/bar/baz/asdf".
Proof. reflexivity. Qed.
Example join_empty : Path.join [""; ""] = ".".
Proof. reflexivity. Qed.
Example dirname_doc :
  Path.dirname "/foo/bar/baz/asdf/quux" = "/foo/bar/baz/asdf".
Proof. reflexivity. Qed.
Example strip_ex1 : Path.stripLeadingDotDots "../..\../x" = "x".
Proof. reflexivity. Qed.
Example strip_ex2 : Path.stripLeadingDotDots "../.." = "..".
Proof. reflexivity. Qed.

Section Segments.

Import Path.

Lemma splitSegments_nonempty (s : string) : splitSegments s <> [].
Proof.
  destruct s as [| c rest]; simpl; [discriminate |].
  destruct (isPathSeparator c); [discriminate |].
  destruct (splitSegments rest); discriminate.
Qed.

(** A slash between two strings separates their segments. *)
Lemma splitSegments_app (a b : string) :
  splitSegments (a ++ String "/" b) = splitSegments a ++ splitSegments b.
Proof.
  induction a as [| c a IH]; simpl; [reflexivity |].
  destruct (isPathSeparator c); rewrite IH; [reflexivity |].
  destruct (splitSegments a) eqn:Ha; [| reflexivity].
  now apply splitSegments_nonempty in Ha.
Qed.

Lemma splitSegments_join (parts : list string) :
  parts <> [] ->
  splitSegments (joinSegments parts) = flat_map splitSegments parts.
Proof.
  unfold joinSegments.
  induction parts as [| p parts IH]; [congruence | intros _].
  destruct parts as [| q parts].
  - simpl. now rewrite app_nil_r.
  - change (String.concat "/" (p :: q :: parts))
      with (p ++ String "/" (String.concat "/" (q :: parts)))%string.
    rewrite splitSegments_app, IH by discriminate. reflexivity.
Qed.

Lemma splitSegments_slashFree (s : string) :
  slashFree s = true -> splitSegments s = [s].
Proof.
  induction s as [| c s IH]; simpl; [reflexivity |].
  destruct (isPathSeparator c); simpl; [discriminate |].
  intros Hs. now rewrite IH.
Qed.

Lemma splitSegments_Forall_slashFree (s : string) :
  Forall (fun seg => slashFree seg = true) (splitSegments s).
Proof.
  induction s as [| c s IH]; simpl.
  - repeat constructor.
  - destruct (isPathSeparator c) eqn:Hc.
    + constructor; [reflexivity | exact IH].
    + destruct (splitSegments s) as [| seg segs]; inversion IH; subst.
      * repeat constructor. simpl. now rewrite Hc.
      * constructor; [| assumption]. simpl. now rewrite Hc.
Qed.

Lemma normalizeSegments_app (allow : bool) (xs ys res : list string) :
  normalizeSegments allow res (xs ++ ys)
  = normalizeSegments allow (normalizeSegments allow res xs) ys.
Proof.
  revert res.
  induction xs as [| x xs IH]; intros res; simpl; [reflexivity |].
  destruct ((x =? "") || (x =? ".")); [apply IH |].
  destruct (x =? ".."); [| apply IH].
  destruct res as [| top below]; [apply IH |].
  destruct (top =? ".."); apply IH.
Qed.

(** Segments without [..] are appended, the empty ones and [.] apart. *)
Lemma normalizeSegments_no_dotdot (allow : bool) (segs res : list string) :
  existsb (fun seg => seg =? "..") segs = false ->
  normalizeSegments allow res segs = rev (filter namedSegment segs) ++ res.
Proof.
  revert res.
  induction segs as [| seg segs IH]; intros res; simpl; [reflexivity |].
  intros Hno. apply Bool.orb_false_iff in Hno as [Hseg Hrest].
  rewrite Hseg. unfold namedSegment at 1.
  destruct ((seg =? "") || (seg =? ".")); simpl.
  - now apply IH.
  - rewrite IH by assumption. now rewrite <- app_assoc.
Qed.

Lemma normalizeSegments_skips_empty (allow : bool) (parts res : list string) :
  normalizeSegments allow res
    (flat_map splitSegments (filter (fun arg => negb (arg =? "")) parts))
  = normalizeSegments allow res (flat_map splitSegments parts).
Proof.
  revert res.
  induction parts as [| p parts IH]; intros res; simpl; [reflexivity |].
  destruct (p =? "") eqn:Hp; simpl.
  - apply String.eqb_eq in Hp. subst p. simpl. apply IH.
  - rewrite !normalizeSegments_app. apply IH.
Qed.

Lemma normalizeSegments_kept (allow : bool) (segs res : list string) :
  Forall (fun seg => slashFree seg = true) segs ->
  Forall keptSegment res ->
  Forall keptSegment (normalizeSegments allow res segs).
Proof.
  revert res.
  induction segs as [| seg segs IH]; intros res Hsegs Hres; simpl;
    [assumption |].
  inversion Hsegs as [| ? ? Hseg Hsegs']; subst.
  destruct ((seg =? "") || (seg =? ".")) eqn:Hskip; [now apply IH |].
  destruct (seg =? "..") eqn:Hdd.
  - assert (Hkept : keptSegment "..") by (split; reflexivity).
    destruct res as [| top below].
    + apply IH; [assumption |]. destruct allow; repeat constructor.
    + inversion Hres; subst.
      destruct (top =? ".."); apply IH; try assumption.
      destruct allow; [constructor |]; assumption.
  - apply IH; [assumption |]. constructor; [| assumption].
    split; [assumption |]. unfold namedSegment. now rewrite Hskip.
Qed.

Lemma flat_map_split_kept (segs : list string) :
  Forall keptSegment segs -> flat_map splitSegments segs = segs.
Proof.
  induction 1 as [| seg segs [Hfree _] _ IH]; simpl; [reflexivity |].
  now rewrite (splitSegments_slashFree seg Hfree), IH.
Qed.

Lemma filter_named_kept (segs : list string) :
  Forall keptSegment segs -> filter namedSegment segs = segs.
Proof.
  induction 1 as [| seg segs [_ Hnamed] _ IH]; simpl; [reflexivity |].
  now rewrite Hnamed, IH.
Qed.

Lemma pathSegments_join_kept (segs : list string) :
  Forall keptSegment segs -> pathSegments (joinSegments segs) = segs.
Proof.
  intros Hkept. unfold pathSegments.
  destruct segs as [| seg segs]; [reflexivity |].
  rewrite splitSegments_join by discriminate.
  rewrite flat_map_split_kept by assumption.
  now apply filter_named_kept.
Qed.

Lemma joinSegments_kept_empty (segs : list string) :
  Forall keptSegment segs -> joinSegments segs = "" -> segs = [].
Proof.
  intros Hkept Hjoin.
  destruct segs as [| seg segs]; [reflexivity | exfalso].
  inversion Hkept as [| ? ? [_ Hnamed] _]; subst.
  destruct seg as [| c seg]; [discriminate Hnamed |].
  destruct segs; discriminate Hjoin.
Qed.

Lemma append_empty (s : string) : (s ++ "")%string = s.
Proof.
  induction s as [| c s IH]; simpl; [reflexivity | now rewrite IH].
Qed.

Lemma pathSegments_leading_slash (p : string) :
  pathSegments (String "/" p) = pathSegments p.
Proof. reflexivity. Qed.

Lemma pathSegments_trailing_slash (p : string) :
  pathSegments (p ++ "/") = pathSegments p.
Proof.
  unfold pathSegments.
  rewrite splitSegments_app, filter_app. simpl. apply app_nil_r.
Qed.

(** The named segments of a normalized path are what the loop of
    [normalizeString] kept. *)
Lemma pathSegments_normalize (p : string) :
  pathSegments (normalize p)
  = rev (normalizeSegments (negb (startsWithSeparator p)) []
           (splitSegments p)).
Proof.
  unfold normalize, normalizeString.
  destruct (p =? "") eqn:Hp.
  - apply String.eqb_eq in Hp. subst p. reflexivity.
  - set (segs := rev (normalizeSegments _ [] (splitSegments p))).
    assert (Hkept : Forall keptSegment segs).
    { apply Forall_rev, normalizeSegments_kept;
        [apply splitSegments_Forall_slashFree | constructor]. }
    destruct (joinSegments segs =? "") eqn:Hjoin.
    + apply String.eqb_eq in Hjoin.
      rewrite (joinSegments_kept_empty segs Hkept Hjoin).
      destruct (startsWithSeparator p), (endsWithSeparator p); reflexivity.
    + destruct (startsWithSeparator p), (endsWithSeparator p); simpl;
        rewrite ?pathSegments_leading_slash, ?pathSegments_trailing_slash,
          ?append_empty;
        now apply pathSegments_join_kept.
Qed.

Lemma startsWithSeparator_join (first : string) (rest : list string) :
  first <> "" ->
  startsWithSeparator (joinSegments (first :: rest))
  = startsWithSeparator first.
Proof.
  intros Hfirst. destruct first as [| c first]; [congruence |].
  destruct rest; reflexivity.
Qed.

Lemma plainName_inv (s : string) :
  plainName s = true ->
  splitSegments s = [s] /\ s <> "" /\ startsWithSeparator s = false
  /\ (forall allow res, normalizeSegments allow res [s] = s :: res).
Proof.
  unfold plainName, namedSegment. intros Hplain.
  apply Bool.andb_true_iff in Hplain as [Hplain Hdd].
  apply Bool.andb_true_iff in Hplain as [Hfree Hnamed].
  apply Bool.negb_true_iff in Hdd, Hnamed.
  repeat split.
  - now apply splitSegments_slashFree.
  - intros ->. discriminate Hnamed.
  - destruct s as [| c s]; [reflexivity |]. simpl in *.
    now destruct (isPathSeparator c).
  - intros allow res. simpl. now rewrite Hnamed, Hdd.
Qed.

End Segments.

Section Resolution.

Import Path.

Variable params : Params.

(** The loop of [normalizeString] over the joined arguments of
    [toSafeLocalPath]: it has the base path, the two identifiers, and then
    meets the segments of the sanitized file name. *)
Lemma toSafeLocalPath_segments (user : User) (fileName : string) :
  plainName (account_id user) = true ->
  plainName (app_id user) = true ->
  pathSegments (toSafeLocalPath params user fileName)
  = rev (normalizeSegments (negb (startsWithSeparator (basePath params)))
           (app_id user :: account_id user
              :: rev (pathSegments (normalize (basePath params))))
           (splitSegments (safeFilename fileName))).
Proof.
  intros Hacct Happ.
  destruct (plainName_inv _ Hacct) as (Sacct & Nacct & Aacct & Pacct).
  destruct (plainName_inv _ Happ) as (Sapp & _ & _ & Papp).
  unfold toSafeLocalPath, join.
  set (safe := safeFilename fileName) in *.
  set (args := [basePath params; account_id user; app_id user; safe]).
  assert (Habs : forall parts,
             filter (fun arg => negb (arg =? "")) args = parts ->
             parts <> []
             /\ startsWithSeparator (joinSegments parts)
                = startsWithSeparator (basePath params)).
  { intros parts <-. unfold args. simpl.
    apply String.eqb_neq in Nacct. rewrite Nacct. simpl.
    destruct (basePath params =? "") eqn:Hbase; simpl.
    - apply String.eqb_eq in Hbase. rewrite Hbase.
      split; [discriminate |].
      rewrite startsWithSeparator_join by now apply String.eqb_neq.
      exact Aacct.
    - split; [discriminate |].
      apply startsWithSeparator_join. now apply String.eqb_neq. }
  destruct (filter (fun arg => negb (arg =? "")) args) as [| part parts]
    eqn:Hparts.
  - now destruct (Habs [] eq_refl).
  - destruct (Habs _ eq_refl) as [Hne Hstart].
    rewrite !pathSegments_normalize, Hstart.
    rewrite splitSegments_join by assumption.
    rewrite <- Hparts, normalizeSegments_skips_empty.
    unfold args. simpl flat_map. rewrite Sacct, Sapp, app_nil_r.
    now rewrite !normalizeSegments_app, Pacct, Papp, rev_involutive.
Qed.

(** C2, as the driver has it: for a tenant whose identifiers are plain names
    and a logical path whose sanitized form has no [..] segment, the named
    segments of the resolved path are those of the base path, then the
    account identifier, then the application identifier, then those of the
    sanitized logical path.  Nothing stands between the base path and the
    account identifier. *)
Theorem toSafeLocalPath_layout (user : User) (fileName : string) :
  plainName (account_id user) = true ->
  plainName (app_id user) = true ->
  hasDotDotSegment (safeFilename fileName) = false ->
  pathSegments (toSafeLocalPath params user fileName)
  = pathSegments (normalize (basePath params))
      ++ [account_id user; app_id user]
      ++ pathSegments (safeFilename fileName).
Proof.
  intros Hacct Happ Hsafe.
  rewrite toSafeLocalPath_segments by assumption.
  rewrite normalizeSegments_no_dotdot by exact Hsafe.
  rewrite rev_app_distr, rev_involutive. simpl.
  rewrite rev_involutive, <- !app_assoc. reflexivity.
Qed.

Lemma isPrefixOf_app (xs ys zs : list string) :
  isPrefixOf (xs ++ ys) (xs ++ zs) = isPrefixOf ys zs.
Proof.
  induction xs as [| x xs IH]; simpl; [reflexivity |].
  now rewrite String.eqb_refl.
Qed.

Lemma isPrefixOf_app_r (xs ys : list string) :
  isPrefixOf xs (xs ++ ys) = true.
Proof.
  rewrite <- (app_nil_r xs) at 1. apply isPrefixOf_app.
Qed.

(** A sanitized file name without [..] segment stays in the subtree of the
    tenant. *)
Lemma toSafeLocalPath_within_tenant (user : User) (fileName : string) :
  plainName (account_id user) = true ->
  plainName (app_id user) = true ->
  hasDotDotSegment (safeFilename fileName) = false ->
  Design.withinTenant (basePath params) user
    (toSafeLocalPath params user fileName) = true.
Proof.
  intros Hacct Happ Hsafe. unfold Design.withinTenant, Design.tenantRoot.
  rewrite toSafeLocalPath_segments by assumption.
  rewrite normalizeSegments_no_dotdot by exact Hsafe.
  rewrite rev_app_distr, rev_involutive. simpl.
  rewrite rev_involutive, <- !app_assoc. simpl.
  change (account_id user :: app_id user
            :: filter namedSegment (splitSegments (safeFilename fileName)))
    with ([account_id user; app_id user]
            ++ filter namedSegment (splitSegments (safeFilename fileName))).
  rewrite app_assoc. apply isPrefixOf_app_r.
Qed.

(** C1 fails on the logical path [..]: the regular expression wants a slash
    or a backslash after each [..], so the lone [..] that [normalize] yields
    stays, and the join takes it up one level: for every tenant with plain
    identifiers the resolved path is the directory of the account, which is
    outside the subtree of the tenant. *)
Theorem toSafeLocalPath_dotdot_escapes (user : User) :
  plainName (account_id user) = true ->
  plainName (app_id user) = true ->
  pathSegments (toSafeLocalPath params user "..")
  = pathSegments (normalize (basePath params)) ++ [account_id user]
  /\ Design.withinTenant (basePath params) user
       (toSafeLocalPath params user "..") = false.
Proof.
  intros Hacct Happ.
  assert (Hsegs : pathSegments (toSafeLocalPath params user "..")
                  = pathSegments (normalize (basePath params))
                      ++ [account_id user]).
  { rewrite toSafeLocalPath_segments by assumption.
    change (splitSegments (safeFilename "..")) with [".."].
    unfold plainName in Happ.
    apply Bool.andb_true_iff in Happ as [_ Hdd].
    apply Bool.negb_true_iff in Hdd.
    simpl. rewrite Hdd. simpl. now rewrite rev_involutive. }
  split; [exact Hsegs |].
  unfold Design.withinTenant, Design.tenantRoot.
  rewrite Hsegs, isPrefixOf_app. simpl.
  now rewrite String.eqb_refl.
Qed.

End Resolution.

(* ------------------------------------------------------------------------- *)
(** * Properties of the callback protocol *)

Section Protocol.

Variable W : Type.
Variable client : Backend W.
Variable params : Params.

(** *** moveObject *)

Lemma moveObject_mkdirp_failure (user : User) (filename newFilename : string)
  (w w1 : W) (e : Err) :
  mkdirp client (Path.dirname (toSafeLocalPath params user newFilename)) w
    = (Failed e, w1) ->
  run (moveObject W client params user filename newFilename (observe W)) w =
  (Returned tt,
   {| world := w1;
      trace := [Requested
                  (Mkdirp (Path.dirname
                             (toSafeLocalPath params user newFilename)));
                CalledBack (Val e) Undefined] |}).
Proof.
  intros Hmk. exec. answer Hmk. reflexivity.
Qed.

(** C10: when the link step of moveObject fails, the client has been asked
    for the recursive creation of the parent of the destination and for the
    link, in that order, and for nothing else: no unlink is issued, the world
    is the one the failed link left, and the callback receives the error of
    the link. *)
Theorem moveObject_link_failure (user : User) (filename newFilename : string)
  (w w1 w2 : W) (e : Err) :
  mkdirp client (Path.dirname (toSafeLocalPath params user newFilename)) w
    = (Done tt, w1) ->
  ln client (toSafeLocalPath params user filename)
    (toSafeLocalPath params user newFilename) w1
    = (Failed e, w2) ->
  run (moveObject W client params user filename newFilename (observe W)) w =
  (Returned tt,
   {| world := w2;
      trace := [Requested
                  (Mkdirp (Path.dirname
                             (toSafeLocalPath params user newFilename)));
                Requested
                  (Ln (toSafeLocalPath params user filename)
                     (toSafeLocalPath params user newFilename));
                CalledBack (Val e) Undefined] |}).
Proof.
  intros Hmk Hln. exec. answer Hmk. answer Hln. reflexivity.
Qed.

(** C3, as the driver has it: when the link succeeds and the unlink fails,
    the driver issues no call after the unlink (nothing undoes the link, so
    the world is the one the failed unlink left), and the callback receives
    the error of the unlink as it is, in the form [callback(err)] that every
    other failing step uses. *)
Theorem moveObject_unlink_failure (user : User) (filename newFilename : string)
  (w w1 w2 w3 : W) (e : Err) :
  mkdirp client (Path.dirname (toSafeLocalPath params user newFilename)) w
    = (Done tt, w1) ->
  ln client (toSafeLocalPath params user filename)
    (toSafeLocalPath params user newFilename) w1
    = (Done tt, w2) ->
  unlink client (toSafeLocalPath params user filename) w2 = (Failed e, w3) ->
  run (moveObject W client params user filename newFilename (observe W)) w =
  (Returned tt,
   {| world := w3;
      trace := [Requested
                  (Mkdirp (Path.dirname
                             (toSafeLocalPath params user newFilename)));
                Requested
                  (Ln (toSafeLocalPath params user filename)
                     (toSafeLocalPath params user newFilename));
                Requested (Unlink (toSafeLocalPath params user filename));
                CalledBack (Val e) Undefined] |}).
Proof.
  intros Hmk Hln Hun. exec. answer Hmk. answer Hln. answer Hun. reflexivity.
Qed.

Lemma moveObject_success (user : User) (filename newFilename : string)
  (w w1 w2 w3 : W) :
  mkdirp client (Path.dirname (toSafeLocalPath params user newFilename)) w
    = (Done tt, w1) ->
  ln client (toSafeLocalPath params user filename)
    (toSafeLocalPath params user newFilename) w1
    = (Done tt, w2) ->
  unlink client (toSafeLocalPath params user filename) w2 = (Done tt, w3) ->
  run (moveObject W client params user filename newFilename (observe W)) w =
  (Returned tt,
   {| world := w3;
      trace := [Requested
                  (Mkdirp (Path.dirname
                             (toSafeLocalPath params user newFilename)));
                Requested
                  (Ln (toSafeLocalPath params user filename)
                     (toSafeLocalPath params user newFilename));
                Requested (Unlink (toSafeLocalPath params user filename));
                CalledBack Null
                  (Val {| name := newFilename; tag := "file";
                          size := None |})] |}).
Proof.
  intros Hmk Hln Hun. exec. answer Hmk. answer Hln. answer Hun. reflexivity.
Qed.

(** *** listDirectory *)

(** Any failure of [ls] leaves [res] undefined, so the handler goes on to
    [res.on] after it has called back, and throws. *)
Lemma listDirectory_failure_falls_through (user : User) (dirpath : string)
  (w w1 : W) (e : Err) :
  ls client (toSafeLocalPath params user dirpath) w = (Failed e, w1) ->
  outcome (listDirectory W client params user dirpath (observe W)) w
  = Threw TypeError.
Proof.
  intros Hls. exec. answer Hls.
  destruct ((code e =? "NOTFOUND") || (dirpath =? "")); reflexivity.
Qed.

(** C4, at the tenant root: whatever the error of [ls] is, also one whose
    code is not [NOTFOUND], the callback is invoked once, with no error and
    the empty listing. *)
Theorem listDirectory_root_any_error_is_empty (user : User) (w w1 : W)
  (e : Err) :
  ls client (toSafeLocalPath params user "") w = (Failed e, w1) ->
  callbacks (listDirectory W client params user "" (observe W)) w
  = [(Null, Val [])].
Proof.
  intros Hls. exec. answer Hls.
  rewrite Bool.orb_true_r. reflexivity.
Qed.

(** X15: off the root, an error whose code is not [NOTFOUND] reaches the
    caller. *)
Lemma listDirectory_other_error_propagates (user : User) (dirpath : string)
  (w w1 : W) (e : Err) :
  ls client (toSafeLocalPath params user dirpath) w = (Failed e, w1) ->
  code e <> "NOTFOUND" ->
  dirpath <> "" ->
  callbacks (listDirectory W client params user dirpath (observe W)) w
  = [(Val e, Undefined)].
Proof.
  intros Hls Hcode Hpath. exec. answer Hls.
  apply String.eqb_neq in Hcode. apply String.eqb_neq in Hpath.
  rewrite Hcode, Hpath. reflexivity.
Qed.

(** C5 fails on the code: listing the tenant root when [ls] reports
    [NOTFOUND] does call back, once, with a null error and the empty
    collection, but the error branch does not return: the handler goes on to
    [res.on] with [res] undefined and the call ends with a [TypeError]
    instead of completing. *)
Theorem listDirectory_root_not_found_then_throws (user : User) (w w1 : W)
  (e : Err) :
  ls client (toSafeLocalPath params user "") w = (Failed e, w1) ->
  code e = "NOTFOUND" ->
  run (listDirectory W client params user "" (observe W)) w
  = (Threw TypeError,
     {| world := w1;
        trace := [Requested (Ls (toSafeLocalPath params user ""));
                  CalledBack Null (Val [])] |}).
Proof.
  intros Hls Hcode. exec. answer Hls. rewrite Hcode. reflexivity.
Qed.

(** A listing that arrives whole: the entries in arrival order. *)
Lemma listDirectory_success (user : User) (dirpath : string) (w w1 : W)
  (res : Listing) :
  ls client (toSafeLocalPath params user dirpath) w = (Done res, w1) ->
  ending res = End ->
  callbacks (listDirectory W client params user dirpath (observe W)) w
  = [(Null, Val (fold_left (onArrival) (arrivals res) []))].
Proof.
  intros Hls Hend. exec. answer Hls. rewrite Hend. reflexivity.
Qed.

(** *** getObject *)

(** C6: the first thing the caller of getObject is told is the absence of the
    object, with no error, when [get] fails with [ResourceNotFound] (and then
    no invocation carries an error or a stream); the error itself when [get]
    fails otherwise; the stream, in the only invocation, when [get]
    succeeds. *)
Theorem getObject_outcomes (user : User) (filename : string) (w w1 : W) :
  (forall e,
      get client (toSafeLocalPath params user filename) w = (Failed e, w1) ->
      code e = "ResourceNotFound" ->
      hd_error (callbacks (getObject W client params user filename
                             (observe W)) w) = Some (Null, Null)
      /\ Forall (fun cb => fst cb = Null
                           /\ (snd cb = Null \/ snd cb = Undefined))
           (callbacks (getObject W client params user filename
                         (observe W)) w))
  /\ (forall e,
      get client (toSafeLocalPath params user filename) w = (Failed e, w1) ->
      code e <> "ResourceNotFound" ->
      hd_error (callbacks (getObject W client params user filename
                             (observe W)) w) = Some (Val e, Undefined))
  /\ (forall stream,
      get client (toSafeLocalPath params user filename) w
        = (Done stream, w1) ->
      callbacks (getObject W client params user filename (observe W)) w
      = [(Null, Val stream)]).
Proof.
  split; [| split].
  - intros e Hget Hcode. split.
    + exec. answer Hget. rewrite Hcode. reflexivity.
    + exec. answer Hget. rewrite Hcode. simpl.
      constructor; [simpl; auto |].
      constructor; [| constructor].
      destruct (streamOnFailure client _ w); simpl; auto.
  - intros e Hget Hcode. exec. answer Hget.
    apply String.eqb_neq in Hcode. rewrite Hcode. reflexivity.
  - intros stream Hget. exec. answer Hget. reflexivity.
Qed.

(** C9, as the driver has it: when [get] reports an error the callback is
    invoked twice: with the absence of the object ([ResourceNotFound]) or
    with the error, and then again with a null error and, as the stream, what
    the client passed in its place with the error: [undefined] when it
    passed nothing, [null] when it passed [null]; never a stream. *)
Theorem getObject_failure_calls_back_twice (user : User) (filename : string)
  (w w1 : W) (e : Err) :
  get client (toSafeLocalPath params user filename) w = (Failed e, w1) ->
  callbacks (getObject W client params user filename (observe W)) w
  = [ (if code e =? "ResourceNotFound" then (Null, Null)
       else (Val e, Undefined));
      (Null,
       absentArg
         (streamOnFailure client (toSafeLocalPath params user filename) w)) ].
Proof.
  intros Hget. exec. answer Hget.
  destruct (code e =? "ResourceNotFound"); reflexivity.
Qed.

(** *** deleteObject *)

(** C7: deleteObject asks for the info of the resolved path first.  When that
    fails, the error goes to the callback and no unlink is issued: the world
    is the one [info] left.  When it succeeds and the unlink fails, the error
    of the unlink goes to the callback.  When both succeed, the entry has the
    path the caller gave as its name, and is a folder exactly when the info
    has the extension [directory]. *)
Theorem deleteObject_steps (user : User) (filename : string) (w w1 : W) :
  (forall e,
      info client (toSafeLocalPath params user filename) w = (Failed e, w1) ->
      run (deleteObject W client params user filename (observe W)) w
      = (Returned tt,
         {| world := w1;
            trace := [Requested (InfoOf (toSafeLocalPath params user filename));
                      CalledBack (Val e) Undefined] |}))
  /\ (forall i w2 e,
      info client (toSafeLocalPath params user filename) w = (Done i, w1) ->
      unlink client (toSafeLocalPath params user filename) w1
        = (Failed e, w2) ->
      run (deleteObject W client params user filename (observe W)) w
      = (Returned tt,
         {| world := w2;
            trace := [Requested (InfoOf (toSafeLocalPath params user filename));
                      Requested (Unlink (toSafeLocalPath params user filename));
                      CalledBack (Val e) Undefined] |}))
  /\ (forall i w2,
      info client (toSafeLocalPath params user filename) w = (Done i, w1) ->
      unlink client (toSafeLocalPath params user filename) w1
        = (Done tt, w2) ->
      run (deleteObject W client params user filename (observe W)) w
      = (Returned tt,
         {| world := w2;
            trace := [Requested (InfoOf (toSafeLocalPath params user filename));
                      Requested (Unlink (toSafeLocalPath params user filename));
                      CalledBack Null
                        (Val {| name := filename;
                                tag := if extension i =? "directory"
                                       then "folder" else "file";
                                size := None |})] |})).
Proof.
  split; [| split].
  - intros e Hinfo. exec. answer Hinfo. reflexivity.
  - intros i w2 e Hinfo Hun. exec. answer Hinfo. answer Hun. reflexivity.
  - intros i w2 Hinfo Hun. exec. answer Hinfo. answer Hun.
    unfold getEntryDetails; simpl.
    destruct (extension i =? "directory"); reflexivity.
Qed.

(** *** startMultipartUpload *)

(** C8: whoever the tenant is, startMultipartUpload issues one call,
    [createUpload], on the join of the base path and the constant segment
    [temp0000], for the account of the configuration. *)
Theorem startMultipartUpload_fixed_path (user : User) (w : W) :
  requests (startMultipartUpload W client params user (observe W)) w
  = [CreateUpload (Path.join [basePath params; "temp0000"])
       (Js.user params)].
Proof.
  exec.
  destruct (createUpload client _ _ w) as [[e | id] w1]; reflexivity.
Qed.

Lemma startMultipartUpload_ignores_tenant (user1 user2 : User) (w : W) :
  run (startMultipartUpload W client params user1 (observe W)) w
  = run (startMultipartUpload W client params user2 (observe W)) w.
Proof. reflexivity. Qed.

End Protocol.

(* ------------------------------------------------------------------------- *)
(** * The protocol on the in-memory backend *)

Section Runs.

Import MemStore Scenario.

(** *** Resolved paths *)

Lemma toSafeLocalPath_dotdot_escapes_witness :
  Path.pathSegments (toSafeLocalPath params tenant "..")
  = ["base"; "AB12CD34EF5678"]
  /\ Design.withinTenant "base" tenant (toSafeLocalPath params tenant "..")
     = false.
Proof.
  exact (toSafeLocalPath_dotdot_escapes params tenant eq_refl eq_refl).
Defined.

(** More logical paths that leave the subtree of the tenant, and one that
    the sanitization keeps inside. *)
Example toSafeLocalPath_escapes :
  toSafeLocalPath params tenant ".." = "base/AB12CD34EF5678"
  /\ toSafeLocalPath params tenant "../.." = "base/AB12CD34EF5678"
  /\ toSafeLocalPath params tenant "a/../../.." = "base/AB12CD34EF5678"
  /\ toSafeLocalPath params tenant "..\.." = "base/AB12CD34EF5678"
  /\ toSafeLocalPath params tenant "../../../etc/passwd"
     = "base/AB12CD34EF5678/app1/etc/passwd".
Proof. repeat split. Qed.

(** C2, as stated, fails: the path of [notes/todo.txt] for the account
    [AB12CD34EF5678] has no [AB/12/CD] between the base path and the
    account. *)
Lemma toSafeLocalPath_has_no_shard_prefix :
  toSafeLocalPath params tenant "notes/todo.txt"
  = "base/AB12CD34EF5678/app1/notes/todo.txt"
  /\ Design.shardedPath "base" tenant (safeFilename "notes/todo.txt")
     = "base/AB/12/CD/AB12CD34EF5678/app1/notes/todo.txt"
  /\ toSafeLocalPath params tenant "notes/todo.txt"
     <> Design.shardedPath "base" tenant (safeFilename "notes/todo.txt").
Proof.
  split; [reflexivity | split; [reflexivity | discriminate]].
Qed.

Lemma toSafeLocalPath_layout_witness :
  Path.pathSegments (toSafeLocalPath params tenant "notes/todo.txt")
  = ["base"; "AB12CD34EF5678"; "app1"; "notes"; "todo.txt"].
Proof.
  exact (toSafeLocalPath_layout params tenant "notes/todo.txt"
           eq_refl eq_refl eq_refl).
Defined.

(** *** Operations *)

Lemma moveObject_link_failure_witness :
  requests moveTodo linkFails = [Mkdirp archiveDir; Ln todoPath donePath]
  /\ callbacks moveTodo linkFails = [(Val internalError, Undefined)]
  /\ exists_at todoPath (finalWorld moveTodo linkFails) = true
  /\ exists_at donePath (finalWorld moveTodo linkFails) = false.
Proof.
  unfold requests, callbacks, finalWorld, moveTodo.
  erewrite moveObject_link_failure by reflexivity.
  vm_compute. auto.
Defined.

Lemma moveObject_unlink_failure_witness :
  requests moveTodo unlinkFails
  = [Mkdirp archiveDir; Ln todoPath donePath; Unlink todoPath]
  /\ callbacks moveTodo unlinkFails = [(Val internalError, Undefined)]
  /\ exists_at todoPath (finalWorld moveTodo unlinkFails) = true
  /\ exists_at donePath (finalWorld moveTodo unlinkFails) = true.
Proof.
  unfold requests, callbacks, finalWorld, moveTodo.
  erewrite moveObject_unlink_failure by reflexivity.
  vm_compute. auto.
Defined.

(** C3, as stated, fails: a move whose unlink fails after the link and a
    move whose first step fails give the caller the same invocation, although
    the destination exists after the former and not after the latter. *)
Lemma moveObject_partial_failure_not_distinct :
  ~ distinguishable (callbacks moveTodo unlinkFails)
      (callbacks moveTodo mkdirpFails)
  /\ exists_at donePath (finalWorld moveTodo unlinkFails) = true
  /\ exists_at donePath (finalWorld moveTodo mkdirpFails) = false.
Proof.
  split; [| split]; [| reflexivity | reflexivity].
  intros Hdiff. apply Hdiff. reflexivity.
Qed.

Lemma listDirectory_root_any_error_is_empty_witness :
  code internalError <> "NOTFOUND"
  /\ callbacks listRoot lsRootFails = [(Null, Val [])].
Proof.
  split; [discriminate |].
  unfold listRoot.
  exact (listDirectory_root_any_error_is_empty World backend params tenant
           lsRootFails lsRootFails internalError eq_refl).
Defined.

Lemma listDirectory_root_not_found_then_throws_witness :
  outcome listRoot unused = Threw TypeError
  /\ requests listRoot unused = [Ls tenantDir]
  /\ callbacks listRoot unused = [(Null, Val [])].
Proof.
  unfold outcome, requests, callbacks, listRoot.
  rewrite (listDirectory_root_not_found_then_throws World backend params
             tenant unused unused dnsNotFound eq_refl eq_refl).
  repeat split.
Defined.

Lemma getObject_outcomes_witness :
  hd_error (callbacks getMissing populated) = Some (Null, Null)
  /\ hd_error (callbacks getTodo getFails) = Some (Val internalError, Undefined)
  /\ callbacks getTodo populated = [(Null, Val {| content := "buy milk" |})].
Proof.
  split; [| split].
  - apply (proj1 (getObject_outcomes World backend params tenant
                    "notes/none.txt" populated populated)
             (notFound "base/AB12CD34EF5678/app1/notes/none.txt") eq_refl
             eq_refl).
  - apply (proj1 (proj2 (getObject_outcomes World backend params tenant
                           "notes/todo.txt" getFails getFails))
             internalError eq_refl).
    discriminate.
  - apply (proj2 (proj2 (getObject_outcomes World backend params tenant
                           "notes/todo.txt" populated populated))
             {| content := "buy milk" |} eq_refl).
Defined.

(** C9, as stated, fails: with a client that passes [null] where the stream
    would be, as the manta client does, the second invocation carries
    [null], not [undefined]. *)
Lemma getObject_second_stream_not_undefined :
  callbacks getTodo getFails
  = [(Val internalError, Undefined); (Null, Null)]
  /\ nth_error (callbacks getTodo getFails) 1 <> Some (Null, Undefined).
Proof.
  split; [reflexivity | discriminate].
Qed.

Lemma getObject_failure_calls_back_twice_witness :
  callbacks getMissing populated = [(Null, Null); (Null, Null)]
  /\ callbacks getTodo getFails
     = [(Val internalError, Undefined); (Null, Null)]
  /\ callbacks
       (getObject World (Cases.withoutSecond backend) params tenant
          "notes/todo.txt" (observe World)) getFails
     = [(Val internalError, Undefined); (Null, Undefined)].
Proof.
  split; [| split].
  - exact (getObject_failure_calls_back_twice World backend params tenant
             "notes/none.txt" populated populated
             (notFound "base/AB12CD34EF5678/app1/notes/none.txt") eq_refl).
  - exact (getObject_failure_calls_back_twice World backend params tenant
             "notes/todo.txt" getFails getFails internalError eq_refl).
  - exact (getObject_failure_calls_back_twice World
             (Cases.withoutSecond backend) params tenant "notes/todo.txt"
             getFails getFails internalError eq_refl).
Defined.

Lemma deleteObject_steps_witness :
  requests deleteMissing populated
  = [InfoOf "base/AB12CD34EF5678/app1/notes/none.txt"]
  /\ finalWorld deleteMissing populated = populated
  /\ callbacks deleteTodo unlinkFails = [(Val internalError, Undefined)]
  /\ callbacks deleteTodo populated
     = [(Null, Val {| name := "notes/todo.txt"; tag := "file";
                      size := None |})].
Proof.
  unfold requests, callbacks, finalWorld, deleteMissing, deleteTodo.
  rewrite (proj1 (deleteObject_steps World backend params tenant
                    "notes/none.txt" populated populated)
             (notFound "base/AB12CD34EF5678/app1/notes/none.txt") eq_refl).
  erewrite (proj1 (proj2 (deleteObject_steps World backend params tenant
                           "notes/todo.txt" unlinkFails unlinkFails)))
    by reflexivity.
  erewrite (proj2 (proj2 (deleteObject_steps World backend params tenant
                           "notes/todo.txt" populated populated)))
    by reflexivity.
  vm_compute. auto.
Defined.

End Runs.

(* ------------------------------------------------------------------------- *)
(** * What the sanitization lets through *)

Section Sanitization.

Import Path Shape.

Ltac bits c := destruct c as [[|] [|] [|] [|] [|] [|] [|] [|]].

(** The three ways [stripLeadingDotDots] can go. *)
Lemma stripLeadingDotDots_cases (s : string) :
  (exists rest, s = String "." (String "." (String "/" rest))
                /\ stripLeadingDotDots s = stripLeadingDotDots rest)
  \/ (exists rest, s = String "." (String "." (String "\" rest))
                   /\ stripLeadingDotDots s = stripLeadingDotDots rest)
  \/ (stripLeadingDotDots s = s
      /\ (forall rest, s <> String "." (String "." (String "/" rest)))
      /\ (forall rest, s <> String "." (String "." (String "\" rest)))).
Proof.
  assert (Hstay : forall t : string,
             stripLeadingDotDots t = t ->
             (forall rest, t <> String "." (String "." (String "/" rest))) ->
             (forall rest, t <> String "." (String "." (String "\" rest))) ->
             (exists rest, t = String "." (String "." (String "/" rest))
                /\ stripLeadingDotDots t = stripLeadingDotDots rest)
  \/ (exists rest, t = String "." (String "." (String "\" rest))
                   /\ stripLeadingDotDots t = stripLeadingDotDots rest)
  \/ (stripLeadingDotDots t = t
      /\ (forall rest, t <> String "." (String "." (String "/" rest)))
      /\ (forall rest, t <> String "." (String "." (String "\" rest))))).
  { intros t H1 H2 H3. right. right. auto. }
  destruct s as [| c1 s]; [apply Hstay; [reflexivity | discriminate ..] |].
  bits c1; try (apply Hstay; [reflexivity | discriminate ..]).
  destruct s as [| c2 s]; [apply Hstay; [reflexivity | discriminate ..] |].
  bits c2; try (apply Hstay; [reflexivity | discriminate ..]).
  destruct s as [| c3 s]; [apply Hstay; [reflexivity | discriminate ..] |].
  bits c3; try (apply Hstay; [reflexivity | discriminate ..]).
  - left. exists s. split; reflexivity.
  - right. left. exists s. split; reflexivity.
Qed.


Lemma splitSegments_first_empty (s : string) (segs : list string) :
  splitSegments s = "" :: segs ->
  (s = "" /\ segs = []) \/ exists rest, s = String "/" rest.
Proof.
  destruct s as [| c s]; simpl.
  - intros H. left. split; [reflexivity | congruence].
  - destruct (isPathSeparator c) eqn:Hc.
    + intros _. right. exists s. apply Ascii.eqb_eq in Hc. now subst c.
    + destruct (splitSegments s); discriminate.
Qed.

Lemma splitSegments_first_dotdot (s : string) (segs : list string) :
  splitSegments s = ".." :: segs ->
  s = ".." \/ exists rest, s = String "." (String "." (String "/" rest)).
Proof.
  intros Hs.
  assert (Hhead : forall (t : string) (c : ascii) (seg : string)
                         (rest : list string),
             splitSegments t = String c seg :: rest ->
             exists t', t = String c t' /\ splitSegments t' = seg :: rest).
  { intros t c seg rest Ht. destruct t as [| c' t]; [discriminate |].
    simpl in Ht. destruct (isPathSeparator c'); [discriminate |].
    destruct (splitSegments t) as [| seg' rest'] eqn:Hsplit;
      [now apply splitSegments_nonempty in Hsplit |].
    injection Ht as -> -> ->. now exists t. }
  apply Hhead in Hs as (s1 & -> & Hs).
  apply Hhead in Hs as (s2 & -> & Hs).
  apply splitSegments_first_empty in Hs as [[-> _] | [rest ->]].
  - now left.
  - right. now exists rest.
Qed.

Lemma existsb_dotdot_Forall (segs : list string) :
  existsb (fun seg => seg =? "..") segs = true ->
  Forall (fun seg => seg <> "..") segs -> False.
Proof.
  intros Hex Hall. apply existsb_exists in Hex as (seg & Hin & Heq).
  apply String.eqb_eq in Heq. rewrite Forall_forall in Hall.
  now apply (Hall seg Hin).
Qed.

Lemma Climbing_all_down (segs : list string) :
  Forall (fun seg => seg <> "..") segs -> Climbing segs.
Proof.
  intros Hall. destruct segs as [| seg segs]; [constructor |].
  inversion Hall; subst. now apply climbing_down.
Qed.

Lemma Climbing_ups (ups rest : list string) :
  Forall (fun seg => seg = "..") ups ->
  Climbing rest -> Climbing (ups ++ rest).
Proof.
  induction 1 as [| up ups -> _ IH]; intros Hrest; simpl;
    [assumption | apply climbing_up; auto].
Qed.

(** Whatever the regular expression leaves of climbing segments has a [..]
    segment only when it is [..] itself. *)
Lemma stripLeadingDotDots_climbing (n : nat) (s : string) :
  String.length s <= n ->
  Climbing (splitSegments s) ->
  hasDotDotSegment (stripLeadingDotDots s) = true ->
  stripLeadingDotDots s = "..".
Proof.
  revert s. induction n as [| n IH]; intros s Hlen Hclimb Hdd.
  - destruct s; [discriminate Hdd | simpl in Hlen; lia].
  - destruct (stripLeadingDotDots_cases s)
      as [(rest & -> & Hstrip) | [(rest & -> & Hstrip) | (Hstrip & Hs & _)]].
    + rewrite Hstrip in *. apply IH; [simpl in Hlen; lia | | assumption].
      change (Climbing (".." :: splitSegments rest)) in Hclimb.
      inversion Hclimb; subst; [assumption | now apply Climbing_all_down].
    + rewrite Hstrip in *. apply IH; [simpl in Hlen; lia | | assumption].
      simpl in Hclimb. pose proof (splitSegments_nonempty rest) as Hne.
      destruct (splitSegments rest) as [| seg segs]; [congruence |].
      inversion Hclimb; subst. now apply climbing_down.
    + rewrite Hstrip in *. unfold hasDotDotSegment in Hdd.
      assert (Hfirst : exists segs, splitSegments s = ".." :: segs).
      { inversion Hclimb as [Hnil | rest Hrest Heq | seg rest Hrest Heq].
        - symmetry in Hnil. now apply splitSegments_nonempty in Hnil.
        - now exists rest.
        - rewrite <- Heq in Hdd. simpl in Hdd.
          destruct (seg =? "..") eqn:Hseg.
          + apply String.eqb_eq in Hseg. subst seg. now exists rest.
          + now destruct (existsb_dotdot_Forall rest Hdd Hrest). }
      destruct Hfirst as [segs Hsegs].
      apply splitSegments_first_dotdot in Hsegs as [-> | [rest ->]];
        [reflexivity | now destruct (Hs rest)].
Qed.


Lemma stackShape_nil (allow : bool) : stackShape allow [].
Proof. exists [], []. repeat split; auto. Qed.

(** The loop of [normalizeString] keeps its result in shape. *)
Lemma normalizeSegments_stackShape (allow : bool) (segs res : list string) :
  Forall (fun seg => slashFree seg = true) segs ->
  stackShape allow res ->
  stackShape allow (normalizeSegments allow res segs).
Proof.
  revert res.
  induction segs as [| seg segs IH]; intros res Hsegs Hres; simpl;
    [assumption |].
  inversion Hsegs as [| ? ? Hfree Hsegs']; subst.
  destruct ((seg =? "") || (seg =? ".")) eqn:Hskip; [now apply IH |].
  destruct Hres as (regs & ups & -> & Hregs & Hups & Hallow).
  destruct (seg =? "..") eqn:Hdd.
  - destruct regs as [| reg regs]; simpl.
    + destruct ups as [| up ups]; simpl.
      * apply IH; [assumption |]. exists [].
        destruct allow; [exists [".."] | exists []]; repeat split; auto;
          discriminate.
      * inversion Hups as [| ? ? Hup Hups']; subst. simpl.
        apply IH; [assumption |]. exists [].
        destruct allow.
        -- exists (".." :: ".." :: ups). repeat split; auto. discriminate.
        -- now specialize (Hallow eq_refl).
    + inversion Hregs as [| ? ? [_ Hreg] Hregs']; subst.
      apply String.eqb_neq in Hreg. rewrite Hreg.
      apply IH; [assumption |]. now exists regs, ups.
  - apply IH; [assumption |]. exists (seg :: regs), ups.
    repeat split; auto. constructor; [| assumption].
    repeat split; [assumption | | now apply String.eqb_neq].
    unfold namedSegment. now rewrite Hskip.
Qed.

(** The segments of a normalized path: what the loop kept, between at most
    one unnamed segment in front (after which nothing climbs) and unnamed
    segments behind. *)
Lemma splitSegments_normalize (p : string) :
  exists pre post,
    splitSegments (normalize p)
    = pre ++ rev (normalizeSegments (negb (startsWithSeparator p)) []
                    (splitSegments p)) ++ post
    /\ Forall unnamedSegment post
    /\ ((pre = [] /\ startsWithSeparator p = false)
        \/ (exists x, pre = [x] /\ unnamedSegment x
                      /\ (startsWithSeparator p = true
                          \/ normalizeSegments
                               (negb (startsWithSeparator p)) []
                               (splitSegments p) = []))).
Proof.
  unfold normalize, normalizeString.
  destruct (p =? "") eqn:Hp.
  - apply String.eqb_eq in Hp. subst p. exists ["."], []. simpl.
    repeat split; auto. right. exists ".". repeat split; auto.
    now right.
  - set (stack := normalizeSegments _ [] (splitSegments p)).
    assert (Hkept : Forall keptSegment (rev stack)).
    { apply Forall_rev, normalizeSegments_kept;
        [apply splitSegments_Forall_slashFree | constructor]. }
    assert (Hun : unnamedSegment "") by now left.
    assert (Hdot : unnamedSegment ".") by now right.
    destruct (joinSegments (rev stack) =? "") eqn:Hjoin.
    + apply String.eqb_eq in Hjoin.
      pose proof (joinSegments_kept_empty _ Hkept Hjoin) as Hnil.
      assert (Hstack : stack = []).
      { rewrite <- (rev_involutive stack), Hnil. reflexivity. }
      rewrite Hstack. simpl.
      destruct (startsWithSeparator p), (endsWithSeparator p); simpl.
      * exists [""], [""]. repeat split; auto. right. exists "". auto.
      * exists [""], [""]. repeat split; auto. right. exists "". auto.
      * exists ["."], [""]. repeat split; auto. right. exists ".". auto.
      * exists ["."], []. repeat split; auto. right. exists ".". auto.
    + assert (Hsplit : splitSegments (joinSegments (rev stack)) = rev stack).
      { destruct (rev stack) as [| seg segs] eqn:Hrev; [discriminate Hjoin |].
        rewrite splitSegments_join by discriminate.
        now apply flat_map_split_kept. }
      destruct (startsWithSeparator p), (endsWithSeparator p); simpl;
        rewrite ?splitSegments_app, ?append_empty, Hsplit; simpl.
      * exists [""], [""]. repeat split; auto. right. exists "". auto.
      * exists [""], []. rewrite app_nil_r. repeat split; auto.
        right. exists "". auto.
      * exists [], [""]. repeat split; auto.
      * exists [], []. rewrite app_nil_r. repeat split; auto.
Qed.

Lemma regular_not_dotdot (segs : list string) :
  Forall regularSegment segs -> Forall (fun seg => seg <> "..") segs.
Proof. apply Forall_impl. now intros seg [_ Hseg]. Qed.

Lemma unnamed_not_dotdot (segs : list string) :
  Forall unnamedSegment segs -> Forall (fun seg => seg <> "..") segs.
Proof. apply Forall_impl. now intros seg [-> | ->]. Qed.

Lemma Climbing_normalize (p : string) :
  Climbing (splitSegments (normalize p)).
Proof.
  destruct (splitSegments_normalize p) as (pre & post & -> & Hpost & Hpre).
  set (allow := negb (startsWithSeparator p)) in *.
  assert (Hshape : stackShape allow
                     (normalizeSegments allow [] (splitSegments p))).
  { apply normalizeSegments_stackShape;
      [apply splitSegments_Forall_slashFree | apply stackShape_nil]. }
  destruct Hshape as (regs & ups & Hstack & Hregs & Hups & Hallow).
  rewrite Hstack in *. rewrite rev_app_distr.
  assert (Hdown : Forall (fun seg => seg <> "..") (rev regs ++ post)).
  { apply Forall_app. split;
      [apply Forall_rev, regular_not_dotdot | apply unnamed_not_dotdot];
      assumption. }
  destruct Hpre as [[-> Hrel] | (x & -> & Hx & Hflat)]; simpl.
  - rewrite <- app_assoc. apply Climbing_ups;
      [now apply Forall_rev | now apply Climbing_all_down].
  - assert (Hno : ups = []).
    { destruct Hflat as [Habs | Hnil].
      - apply Hallow. unfold allow. now rewrite Habs.
      - apply app_eq_nil in Hnil. tauto. }
    subst ups. simpl. now apply climbing_down.
Qed.

(** The sanitized file name has a [..] segment only when it is [..]. *)
Lemma safeFilename_dotdot (fileName : string) :
  hasDotDotSegment (safeFilename fileName) = true ->
  safeFilename fileName = "..".
Proof.
  unfold safeFilename.
  apply (stripLeadingDotDots_climbing _ _ (le_n _)), Climbing_normalize.
Qed.

End Sanitization.

Section Containment.

Import Path Shape.

Variable params : Params.

(** The two forms a resolved path can take. *)
Lemma toSafeLocalPath_cases (user : User) (fileName : string) :
  plainName (account_id user) = true ->
  plainName (app_id user) = true ->
  (hasDotDotSegment (safeFilename fileName) = false
   /\ pathSegments (toSafeLocalPath params user fileName)
      = pathSegments (normalize (basePath params))
          ++ account_id user :: app_id user
             :: pathSegments (safeFilename fileName))
  \/ (safeFilename fileName = ".."
      /\ pathSegments (toSafeLocalPath params user fileName)
         = pathSegments (normalize (basePath params)) ++ [account_id user]).
Proof.
  intros Hacct Happ.
  rewrite toSafeLocalPath_segments by assumption.
  destruct (hasDotDotSegment (safeFilename fileName)) eqn:Hdd.
  - right. apply safeFilename_dotdot in Hdd. rewrite Hdd.
    split; [reflexivity |].
    unfold plainName in Happ.
    apply Bool.andb_true_iff in Happ as [_ Happ].
    apply Bool.negb_true_iff in Happ.
    simpl. rewrite Happ. simpl. now rewrite rev_involutive.
  - left. split; [reflexivity |].
    rewrite normalizeSegments_no_dotdot by exact Hdd.
    rewrite rev_app_distr, rev_involutive. simpl.
    rewrite rev_involutive, <- !app_assoc. reflexivity.
Qed.

(** X1: whatever the logical path, the resolved path stays in the directory of
    the account, and it leaves the subtree of the tenant exactly when the
    sanitized file name is [..]. *)
Theorem toSafeLocalPath_never_leaves_account (user : User)
  (fileName : string) :
  plainName (account_id user) = true ->
  plainName (app_id user) = true ->
  withinAccount (basePath params) user
    (toSafeLocalPath params user fileName) = true
  /\ (Design.withinTenant (basePath params) user
        (toSafeLocalPath params user fileName) = false
      <-> safeFilename fileName = "..").
Proof.
  intros Hacct Happ.
  unfold withinAccount, Design.withinTenant, Design.tenantRoot.
  destruct (toSafeLocalPath_cases user fileName Hacct Happ)
    as [[Hdd ->] | [Hsafe ->]].
  - split.
    + change (account_id user :: app_id user
                :: pathSegments (safeFilename fileName))
        with ([account_id user]
                ++ app_id user :: pathSegments (safeFilename fileName)).
      rewrite app_assoc. apply isPrefixOf_app_r.
    + change (account_id user :: app_id user
                :: pathSegments (safeFilename fileName))
        with ([account_id user; app_id user]
                ++ pathSegments (safeFilename fileName)).
      rewrite app_assoc, isPrefixOf_app_r.
      split; [discriminate |]. intros Hsafe. rewrite Hsafe in Hdd.
      discriminate Hdd.
  - rewrite !isPrefixOf_app. simpl. rewrite String.eqb_refl.
    repeat split; auto.
Qed.

(** X2: two resolved paths that coincide belong to the same account; they belong
    to the same application too, unless both sanitized file names are
    [..]. *)
Theorem toSafeLocalPath_separates_accounts (user1 user2 : User)
  (fileName1 fileName2 : string) :
  plainName (account_id user1) = true ->
  plainName (app_id user1) = true ->
  plainName (account_id user2) = true ->
  plainName (app_id user2) = true ->
  toSafeLocalPath params user1 fileName1
  = toSafeLocalPath params user2 fileName2 ->
  account_id user1 = account_id user2
  /\ (app_id user1 = app_id user2
      \/ (safeFilename fileName1 = ".." /\ safeFilename fileName2 = "..")).
Proof.
  intros Hacct1 Happ1 Hacct2 Happ2 Heq.
  apply (f_equal pathSegments) in Heq.
  destruct (toSafeLocalPath_cases user1 fileName1 Hacct1 Happ1)
    as [[_ H1] | [Hs1 H1]];
    destruct (toSafeLocalPath_cases user2 fileName2 Hacct2 Happ2)
      as [[_ H2] | [Hs2 H2]];
    rewrite H1, H2 in Heq; apply app_inv_head in Heq;
    injection Heq; intros; subst; auto; discriminate.
Qed.

Lemma noDotDotPrefix_no_dotdot (segs : list string) :
  forallb (fun seg => negb (String.prefix ".." seg)) segs = true ->
  existsb (fun seg => seg =? "..") segs = false.
Proof.
  induction segs as [| seg segs IH]; simpl; [reflexivity |].
  intros Hall. apply Bool.andb_true_iff in Hall as [Hseg Hall].
  rewrite (IH Hall), Bool.orb_false_r.
  destruct (String.eqb_spec seg ".."); [subst seg; discriminate Hseg | auto].
Qed.

Lemma stripLeadingDotDots_no_prefix (s : string) :
  forallb (fun seg => negb (String.prefix ".." seg)) (splitSegments s) = true ->
  stripLeadingDotDots s = s.
Proof.
  intros Hall.
  destruct (stripLeadingDotDots_cases s)
    as [(rest & -> & _) | [(rest & -> & _) | (Hstrip & _)]];
    [| | assumption].
  - discriminate Hall.
  - simpl in Hall. pose proof (splitSegments_nonempty rest) as Hne.
    destruct (splitSegments rest); [congruence | discriminate Hall].
Qed.

(** A logical path none of whose segments begins with two dots is normalized
    and not cut: its named segments are those of the sanitized file name. *)
Lemma safeFilename_no_prefix (fileName : string) :
  noDotDotPrefix fileName = true ->
  hasDotDotSegment (safeFilename fileName) = false
  /\ pathSegments (safeFilename fileName) = pathSegments fileName.
Proof.
  unfold noDotDotPrefix. intros Hall.
  pose proof (noDotDotPrefix_no_dotdot _ Hall) as Hno.
  assert (Hstack : normalizeSegments
                     (negb (startsWithSeparator fileName)) []
                     (splitSegments fileName)
                   = rev (pathSegments fileName)).
  { rewrite normalizeSegments_no_dotdot by assumption. apply app_nil_r. }
  assert (Hnorm : forallb (fun seg => negb (String.prefix ".." seg))
                    (splitSegments (normalize fileName)) = true).
  { destruct (splitSegments_normalize fileName)
      as (pre & post & -> & Hpost & Hpre).
    rewrite Hstack, rev_involutive, !forallb_app.
    apply Bool.andb_true_iff. split; [| apply Bool.andb_true_iff; split].
    - destruct Hpre as [[-> _] | (x & -> & [-> | ->] & _)]; reflexivity.
    - unfold pathSegments. apply forallb_forall. intros seg Hin.
      apply filter_In in Hin as [Hin _].
      now apply (proj1 (forallb_forall _ _) Hall).
    - apply forallb_forall. intros seg Hin.
      rewrite Forall_forall in Hpost.
      now destruct (Hpost seg Hin) as [-> | ->]. }
  unfold safeFilename, hasDotDotSegment.
  rewrite (stripLeadingDotDots_no_prefix _ Hnorm).
  split; [now apply noDotDotPrefix_no_dotdot |].
  now rewrite pathSegments_normalize, Hstack, rev_involutive.
Qed.

(** X3: for a logical path none of whose segments begins with two dots, the
    resolved path is the base path, the account, the application and then
    the named segments of the logical path itself: it lies in the subtree of
    the tenant, and a path without named segment is the root of the
    tenant. *)
Theorem toSafeLocalPath_plain_input (user : User) (fileName : string) :
  plainName (account_id user) = true ->
  plainName (app_id user) = true ->
  noDotDotPrefix fileName = true ->
  pathSegments (toSafeLocalPath params user fileName)
  = Design.tenantRoot (basePath params) user ++ pathSegments fileName.
Proof.
  intros Hacct Happ Hinput.
  destruct (safeFilename_no_prefix fileName Hinput) as [Hdd Hsegs].
  destruct (toSafeLocalPath_cases user fileName Hacct Happ)
    as [[_ ->] | [Hsafe _]].
  - rewrite Hsegs. unfold Design.tenantRoot.
    now rewrite <- app_assoc.
  - rewrite Hsafe in Hdd. discriminate Hdd.
Qed.

End Containment.

Section Dirname.

Import Path Shape.

Lemma list_ascii_of_string_app (a b : string) :
  list_ascii_of_string (a ++ b)
  = list_ascii_of_string a ++ list_ascii_of_string b.
Proof.
  induction a as [| c a IH]; simpl; [reflexivity | now rewrite IH].
Qed.

Lemma slashFree_chars (s : string) :
  slashFree s = true ->
  Forall (fun c => isPathSeparator c = false) (list_ascii_of_string s).
Proof.
  induction s as [| c s IH]; simpl; [constructor |].
  intros Hs. apply Bool.andb_true_iff in Hs as [Hc Hs].
  constructor; [now apply Bool.negb_true_iff | auto].
Qed.

Lemma dropWhile_all {A : Type} (p : A -> bool) (l r : list A) :
  Forall (fun x => p x = true) l -> dropWhile p (l ++ r) = dropWhile p r.
Proof.
  induction 1 as [| x l Hx _ IH]; simpl; [reflexivity | now rewrite Hx].
Qed.

Lemma dropWhile_stop {A : Type} (p : A -> bool) (x : A) (l : list A) :
  p x = false -> dropWhile p (x :: l) = x :: l.
Proof. intros Hx. simpl. now rewrite Hx. Qed.

(** Scanning back from the end of [name ++ post] passes the whole of it when
    [name] is free of slashes, and stops on [before]. *)
Lemma scan_back_segment (name post : string) (before : list ascii) :
  slashFree name = true ->
  trail post ->
  (before = [] \/ (name <> "" /\ exists c rest, before = c :: rest
                                 /\ isPathSeparator c = true)) ->
  dropWhile (fun c => negb (isPathSeparator c))
    (dropWhile isPathSeparator
       (rev (list_ascii_of_string (name ++ post)) ++ before))
  = before.
Proof.
  intros Hname Hpost Hbefore.
  rewrite list_ascii_of_string_app, rev_app_distr, <- app_assoc.
  pose proof (slashFree_chars _ Hname) as Hchars.
  apply Forall_rev in Hchars.
  assert (Hskip : dropWhile (fun c => negb (isPathSeparator c))
                    (rev (list_ascii_of_string name) ++ before) = before).
  { rewrite dropWhile_all.
    - destruct Hbefore as [-> | (_ & x & rest & -> & Hx)]; [reflexivity |].
      simpl. now rewrite Hx.
    - revert Hchars. apply Forall_impl. intros x Hx. now rewrite Hx. }
  destruct name as [| c name].
  - destruct Hbefore as [-> | (Hne & _)]; [| congruence].
    destruct Hpost as [-> | ->]; reflexivity.
  - destruct (rev (list_ascii_of_string (String c name))) as [| x l] eqn:Hr.
    + apply (f_equal (@List.length ascii)) in Hr.
      rewrite length_rev in Hr. discriminate Hr.
    + inversion Hchars as [| ? ? Hx _]; subst.
      assert (Hdrop : dropWhile isPathSeparator
                        (rev (list_ascii_of_string post)
                           ++ (x :: l) ++ before)
                      = (x :: l) ++ before).
      { destruct Hpost as [-> | ->]; simpl; now rewrite Hx. }
      rewrite Hdrop. exact Hskip.
Qed.

Lemma dirname_parent (d name post : string) :
  d <> "" ->
  endsWithSeparator d = false ->
  slashFree name = true ->
  name <> "" ->
  trail post ->
  dirname (d ++ String "/" (name ++ post)) = d.
Proof.
  intros Hd Hend Hname Hne Hpost.
  destruct d as [| first d]; [congruence |].
  unfold dirname. simpl list_ascii_of_string. cbv beta iota zeta.
  rewrite list_ascii_of_string_app. simpl list_ascii_of_string.
  rewrite rev_app_distr. simpl rev. rewrite <- app_assoc. simpl app.
  rewrite scan_back_segment; [| assumption | assumption |].
  - rewrite rev_involutive, length_rev.
    destruct (list_ascii_of_string d) as [| c l] eqn:Hl.
    + assert (Hempty : d = "") by (destruct d; [reflexivity | discriminate]).
      subst d. simpl in Hend. rewrite Hend. reflexivity.
    + rewrite Bool.andb_false_r. rewrite <- Hl.
      simpl. now rewrite string_of_list_ascii_of_string.
  - right. split; [assumption |].
    now exists "/"%char, (rev (list_ascii_of_string d)).
Qed.

Lemma dirname_single (name post : string) :
  slashFree name = true ->
  name <> "" ->
  trail post ->
  dirname (name ++ post) = "." /\ dirname (String "/" (name ++ post)) = "/".
Proof.
  intros Hname Hne Hpost. split.
  - destruct name as [| c name]; [congruence |].
    simpl in Hname. apply Bool.andb_true_iff in Hname as [Hc Hname].
    apply Bool.negb_true_iff in Hc.
    unfold dirname. simpl list_ascii_of_string. cbv beta iota zeta.
    rewrite <- (app_nil_r (rev _)).
    rewrite scan_back_segment by auto. now rewrite Hc.
  - unfold dirname. simpl list_ascii_of_string. cbv beta iota zeta.
    rewrite <- (app_nil_r (rev _)).
    rewrite scan_back_segment by auto. reflexivity.
Qed.


Lemma append_assoc (a b c : string) :
  ((a ++ b) ++ c)%string = (a ++ b ++ c)%string.
Proof.
  induction a as [| x a IH]; simpl; [reflexivity | now rewrite IH].
Qed.

Lemma joinSegments_snoc (init : list string) (last : string) :
  init <> [] ->
  joinSegments (init ++ [last])
  = (joinSegments init ++ String "/" last)%string.
Proof.
  unfold joinSegments.
  induction init as [| x init IH]; [congruence | intros _].
  destruct init as [| y init]; [reflexivity |].
  change (String.concat "/" ((x :: y :: init) ++ [last]))
    with (x ++ String "/" (String.concat "/" ((y :: init) ++ [last])))%string.
  rewrite IH by discriminate.
  change (String.concat "/" (x :: y :: init))
    with (x ++ String "/" (String.concat "/" (y :: init)))%string.
  now rewrite !append_assoc.
Qed.

Lemma endsWithSeparator_app (a b : string) :
  b <> "" -> endsWithSeparator (a ++ b) = endsWithSeparator b.
Proof.
  intros Hb. induction a as [| c a IH]; [reflexivity |].
  simpl. rewrite IH.
  destruct (a ++ b)%string eqn:Hab; [| reflexivity].
  destruct a; [simpl in Hab; congruence | discriminate].
Qed.

Lemma endsWithSeparator_kept (seg : string) :
  keptSegment seg -> endsWithSeparator seg = false.
Proof.
  intros [Hfree _].
  induction seg as [| c seg IH]; [reflexivity |].
  simpl in Hfree. apply Bool.andb_true_iff in Hfree as [Hc Hfree].
  apply Bool.negb_true_iff in Hc. simpl.
  destruct seg; [assumption | now apply IH].
Qed.

Lemma kept_nonempty (seg : string) : keptSegment seg -> seg <> "".
Proof. intros [_ Hnamed] ->. discriminate Hnamed. Qed.

Lemma joinSegments_kept_end (segs : list string) :
  segs <> [] ->
  Forall keptSegment segs ->
  joinSegments segs <> "" /\ endsWithSeparator (joinSegments segs) = false.
Proof.
  intros Hne Hkept.
  destruct (exists_last Hne) as (init & last & ->).
  apply Forall_app in Hkept as [_ Hlast].
  inversion Hlast as [| ? ? Hkept _]; subst.
  pose proof (kept_nonempty _ Hkept) as Hnonempty.
  destruct init as [| x init].
  - simpl. split; [assumption | now apply endsWithSeparator_kept].
  - rewrite joinSegments_snoc by discriminate. split.
    + destruct (joinSegments (x :: init)); discriminate.
    + rewrite endsWithSeparator_app by discriminate.
      change (String "/" last) with ("/" ++ last)%string.
      rewrite endsWithSeparator_app by assumption.
      now apply endsWithSeparator_kept.
Qed.

(** How [normalize] writes its result. *)
Lemma normalize_render (p : string) :
  Forall keptSegment (pathSegments (normalize p))
  /\ ((pathSegments (normalize p) = []
       /\ (normalize p = "." \/ normalize p = "./" \/ normalize p = "/"))
      \/ (pathSegments (normalize p) <> []
          /\ exists pre post,
              normalize p
              = (pre ++ joinSegments (pathSegments (normalize p)) ++ post)
                  %string
              /\ (pre = "" \/ pre = "/") /\ trail post)).
Proof.
  rewrite pathSegments_normalize.
  unfold normalize, normalizeString.
  set (segs := rev (normalizeSegments _ [] (splitSegments p))).
  assert (Hkept : Forall keptSegment segs).
  { apply Forall_rev, normalizeSegments_kept;
      [apply splitSegments_Forall_slashFree | constructor]. }
  split; [assumption |].
  destruct (p =? "") eqn:Hp.
  - apply String.eqb_eq in Hp. subst p. left. split; auto.
  - destruct (joinSegments segs =? "") eqn:Hjoin.
    + apply String.eqb_eq in Hjoin. left.
      split; [now apply joinSegments_kept_empty |].
      destruct (startsWithSeparator p), (endsWithSeparator p); auto.
    + right. split; [intros Hnil; rewrite Hnil in Hjoin; discriminate |].
      exists (if startsWithSeparator p then "/" else ""),
             (if endsWithSeparator p then "/" else "").
      unfold trail.
      destruct (startsWithSeparator p), (endsWithSeparator p); auto.
Qed.

(** The directory of a normalized path has its named segments but the
    last. *)
Lemma dirname_normalize (p : string) :
  pathSegments (dirname (normalize p))
  = removelast (pathSegments (normalize p)).
Proof.
  destruct (normalize_render p) as [Hkept [[Hnil Hform] | [Hne Hform]]].
  - rewrite Hnil. destruct Hform as [-> | [-> | ->]]; reflexivity.
  - destruct Hform as (pre & post & Hform & Hpre & Hpost).
    rewrite Hform at 1.
    destruct (exists_last Hne) as (init & last & Hsegs).
    rewrite Hsegs in *. rewrite removelast_last.
    apply Forall_app in Hkept as [Hinit Hlast].
    inversion Hlast as [| ? ? [Hfree Hnamed] _]; subst.
    assert (Hnonempty : last <> "") by (intros ->; discriminate Hnamed).
    destruct init as [| x init].
    + simpl joinSegments.
      destruct (dirname_single last post Hfree Hnonempty Hpost) as [Hrel Habs].
      destruct Hpre as [-> | ->]; cbn [append];
        change (joinSegments [last]) with last;
        [rewrite Hrel | rewrite Habs]; reflexivity.
    + rewrite joinSegments_snoc by discriminate.
      destruct (joinSegments_kept_end (x :: init)) as [Hjoin Hend];
        [discriminate | assumption |].
      assert (Hshape : (pre ++ (joinSegments (x :: init) ++ String "/" last)
                          ++ post)%string
                       = ((pre ++ joinSegments (x :: init))
                            ++ String "/" (last ++ post))%string).
      { rewrite !append_assoc. reflexivity. }
      rewrite Hshape, dirname_parent; try assumption.
      * destruct Hpre as [-> | ->]; cbn [append];
          rewrite ?pathSegments_leading_slash;
          now apply pathSegments_join_kept.
      * destruct pre; [simpl; assumption | discriminate].
      * now rewrite endsWithSeparator_app.
Qed.

Lemma dirname_join (args : list string) :
  pathSegments (dirname (join args)) = removelast (pathSegments (join args)).
Proof.
  unfold join.
  destruct (filter _ _); [reflexivity | apply dirname_normalize].
Qed.

(** X4: the directory of a resolved path, which putObject, copyObject and
    moveObject create before they write, is the resolved path without its
    last named segment. *)
Theorem dirname_toSafeLocalPath (params : Params) (user : User)
  (fileName : string) :
  pathSegments (dirname (toSafeLocalPath params user fileName))
  = removelast (pathSegments (toSafeLocalPath params user fileName)).
Proof.
  unfold toSafeLocalPath, join.
  destruct (filter _ _); [reflexivity | apply dirname_normalize].
Qed.

End Dirname.

(* ------------------------------------------------------------------------- *)
(** * More of the callback protocol *)

Section Operations.

Import Path Shape Listed.

Variable W : Type.
Variable client : Backend W.
Variable params : Params.

(** Takes the answer of the next backend operation apart. *)
Ltac next_answer :=
  match goal with
  | |- context [let (_, _) := ?op in _] =>
      match type of op with
      | (Reply _ * _)%type =>
          let e := fresh "e" in
          let w := fresh "w" in
          destruct op as [[e | ?] w]
      | (WriteStream * _)%type =>
          let w := fresh "w" in
          destruct op as [? w]
      end
  end; exec.

(** X5: putObject, copyObject and moveObject begin with the creation of a
    directory of the tenant: for a destination none of whose segments begins
    with two dots and that names something, the first request is [mkdirp] on
    the root of the tenant followed by the named segments of the destination
    but the last. *)
Theorem writes_create_parent_in_tenant (user : User)
  (filename newFilename : string) (w : W) :
  plainName (account_id user) = true ->
  plainName (app_id user) = true ->
  noDotDotPrefix newFilename = true ->
  pathSegments newFilename <> [] ->
  hd_error (requests (putObject W client params user newFilename
                        (observe W)) w)
  = Some (Mkdirp (dirname (toSafeLocalPath params user newFilename)))
  /\ hd_error (requests (copyObject W client params user filename
                           newFilename (observe W)) w)
     = Some (Mkdirp (dirname (toSafeLocalPath params user newFilename)))
  /\ hd_error (requests (moveObject W client params user filename
                           newFilename (observe W)) w)
     = Some (Mkdirp (dirname (toSafeLocalPath params user newFilename)))
  /\ pathSegments (dirname (toSafeLocalPath params user newFilename))
     = Design.tenantRoot (basePath params) user
         ++ removelast (pathSegments newFilename).
Proof.
  intros Hacct Happ Hinput Hnamed.
  repeat split.
  - exec. next_answer; [reflexivity |]. next_answer. reflexivity.
  - exec. next_answer; [reflexivity |]. next_answer; reflexivity.
  - exec. next_answer; [reflexivity |]. next_answer; [reflexivity |].
    next_answer; reflexivity.
  - unfold toSafeLocalPath at 1. rewrite dirname_join.
    fold (toSafeLocalPath params user newFilename).
    destruct (safeFilename_no_prefix newFilename Hinput) as [Hdd Hsegs].
    destruct (toSafeLocalPath_cases params user newFilename Hacct Happ)
      as [[_ ->] | [Hsafe _]].
    + rewrite Hsegs. unfold Design.tenantRoot.
      change (account_id user :: app_id user :: pathSegments newFilename)
        with ([account_id user; app_id user] ++ pathSegments newFilename).
      rewrite app_assoc. now apply removelast_app.
    + rewrite Hsafe in Hdd. discriminate Hdd.
Qed.

(** X6: except for getObject and listDirectory, every operation returns
    normally and has invoked the callback exactly once, whatever the backend
    answers. *)
Theorem callback_exactly_once (user : User) (path newPath : string) (w : W) :
  (outcome (createDirectory W client params user path (observe W)) w
   = Returned tt
   /\ List.length (callbacks (createDirectory W client params user path
                                (observe W)) w) = 1)
  /\ (outcome (putObject W client params user path (observe W)) w
      = Returned tt
      /\ List.length (callbacks (putObject W client params user path
                                   (observe W)) w) = 1)
  /\ (outcome (copyObject W client params user path newPath (observe W)) w
      = Returned tt
      /\ List.length (callbacks (copyObject W client params user path newPath
                                   (observe W)) w) = 1)
  /\ (outcome (moveObject W client params user path newPath (observe W)) w
      = Returned tt
      /\ List.length (callbacks (moveObject W client params user path newPath
                                   (observe W)) w) = 1)
  /\ (outcome (deleteObject W client params user path (observe W)) w
      = Returned tt
      /\ List.length (callbacks (deleteObject W client params user path
                                   (observe W)) w) = 1)
  /\ (outcome (startMultipartUpload W client params user (observe W)) w
      = Returned tt
      /\ List.length (callbacks (startMultipartUpload W client params user
                                   (observe W)) w) = 1).
Proof.
  repeat split; exec; repeat next_answer; reflexivity.
Qed.


(** *** createDirectory *)

(** X8: createDirectory asks for the recursive creation of the resolved path and
    hands the error of [mkdirp] to the callback, or on success a folder entry
    whose name is the path as the caller wrote it and which has no size. *)
Theorem createDirectory_steps (user : User) (dirPath : string) (w w1 : W) :
  (forall e,
      mkdirp client (toSafeLocalPath params user dirPath) w = (Failed e, w1) ->
      run (createDirectory W client params user dirPath (observe W)) w
      = (Returned tt,
         {| world := w1;
            trace := [Requested (Mkdirp (toSafeLocalPath params user dirPath));
                      CalledBack (Val e) Undefined] |}))
  /\ (mkdirp client (toSafeLocalPath params user dirPath) w = (Done tt, w1) ->
      run (createDirectory W client params user dirPath (observe W)) w
      = (Returned tt,
         {| world := w1;
            trace := [Requested (Mkdirp (toSafeLocalPath params user dirPath));
                      CalledBack Null
                        (Val {| name := dirPath; tag := "folder";
                                size := None |})] |})).
Proof.
  split.
  - intros e Hmk. exec. answer Hmk. reflexivity.
  - intros Hmk. exec. answer Hmk. reflexivity.
Qed.

(** *** putObject *)

(** X9: putObject creates the directory of the resolved path first.  When that
    fails the error goes to the callback and no write stream is opened; when
    it succeeds the callback receives the write stream the client opened on
    the resolved path. *)
Theorem putObject_steps (user : User) (filename : string) (w w1 : W) :
  (forall e,
      mkdirp client (dirname (toSafeLocalPath params user filename)) w
        = (Failed e, w1) ->
      run (putObject W client params user filename (observe W)) w
      = (Returned tt,
         {| world := w1;
            trace := [Requested
                        (Mkdirp (dirname
                                   (toSafeLocalPath params user filename)));
                      CalledBack (Val e) Undefined] |}))
  /\ (forall stream w2,
      mkdirp client (dirname (toSafeLocalPath params user filename)) w
        = (Done tt, w1) ->
      createWriteStream client (toSafeLocalPath params user filename) w1
        = (stream, w2) ->
      run (putObject W client params user filename (observe W)) w
      = (Returned tt,
         {| world := w2;
            trace := [Requested
                        (Mkdirp (dirname
                                   (toSafeLocalPath params user filename)));
                      Requested
                        (CreateWriteStream
                           (toSafeLocalPath params user filename));
                      CalledBack Null (Val stream)] |})).
Proof.
  split.
  - intros e Hmk. exec. answer Hmk. reflexivity.
  - intros stream w2 Hmk Hws. exec. answer Hmk. answer Hws. reflexivity.
Qed.

(** *** copyObject *)

(** X10: copyObject creates the directory of the destination, then links.  The
    error of the first step that fails goes to the callback; on success the
    entry is a file named as the caller named the destination.  The source
    is never unlinked. *)
Theorem copyObject_steps (user : User) (filename newFilename : string)
  (w w1 : W) :
  (forall e,
      mkdirp client (dirname (toSafeLocalPath params user newFilename)) w
        = (Failed e, w1) ->
      run (copyObject W client params user filename newFilename (observe W)) w
      = (Returned tt,
         {| world := w1;
            trace := [Requested
                        (Mkdirp (dirname
                                   (toSafeLocalPath params user newFilename)));
                      CalledBack (Val e) Undefined] |}))
  /\ (forall e w2,
      mkdirp client (dirname (toSafeLocalPath params user newFilename)) w
        = (Done tt, w1) ->
      ln client (toSafeLocalPath params user filename)
        (toSafeLocalPath params user newFilename) w1 = (Failed e, w2) ->
      run (copyObject W client params user filename newFilename (observe W)) w
      = (Returned tt,
         {| world := w2;
            trace := [Requested
                        (Mkdirp (dirname
                                   (toSafeLocalPath params user newFilename)));
                      Requested
                        (Ln (toSafeLocalPath params user filename)
                           (toSafeLocalPath params user newFilename));
                      CalledBack (Val e) Undefined] |}))
  /\ (forall w2,
      mkdirp client (dirname (toSafeLocalPath params user newFilename)) w
        = (Done tt, w1) ->
      ln client (toSafeLocalPath params user filename)
        (toSafeLocalPath params user newFilename) w1 = (Done tt, w2) ->
      run (copyObject W client params user filename newFilename (observe W)) w
      = (Returned tt,
         {| world := w2;
            trace := [Requested
                        (Mkdirp (dirname
                                   (toSafeLocalPath params user newFilename)));
                      Requested
                        (Ln (toSafeLocalPath params user filename)
                           (toSafeLocalPath params user newFilename));
                      CalledBack Null
                        (Val {| name := newFilename; tag := "file";
                                size := None |})] |})).
Proof.
  split; [| split].
  - intros e Hmk. exec. answer Hmk. reflexivity.
  - intros e w2 Hmk Hln. exec. answer Hmk. answer Hln. reflexivity.
  - intros w2 Hmk Hln. exec. answer Hmk. answer Hln. reflexivity.
Qed.

(** *** moveObject *)

(** X11: moveObject that meets no failure has asked for [mkdirp], [ln] and
    [unlink] of the source in that order, and hands over a file entry named
    as the caller named the destination; when [mkdirp] fails nothing is
    linked or unlinked. *)
Theorem moveObject_steps (user : User) (filename newFilename : string)
  (w w1 : W) :
  (forall e,
      mkdirp client (dirname (toSafeLocalPath params user newFilename)) w
        = (Failed e, w1) ->
      run (moveObject W client params user filename newFilename (observe W)) w
      = (Returned tt,
         {| world := w1;
            trace := [Requested
                        (Mkdirp (dirname
                                   (toSafeLocalPath params user newFilename)));
                      CalledBack (Val e) Undefined] |}))
  /\ (forall w2 w3,
      mkdirp client (dirname (toSafeLocalPath params user newFilename)) w
        = (Done tt, w1) ->
      ln client (toSafeLocalPath params user filename)
        (toSafeLocalPath params user newFilename) w1 = (Done tt, w2) ->
      unlink client (toSafeLocalPath params user filename) w2
        = (Done tt, w3) ->
      run (moveObject W client params user filename newFilename (observe W)) w
      = (Returned tt,
         {| world := w3;
            trace := [Requested
                        (Mkdirp (dirname
                                   (toSafeLocalPath params user newFilename)));
                      Requested
                        (Ln (toSafeLocalPath params user filename)
                           (toSafeLocalPath params user newFilename));
                      Requested (Unlink (toSafeLocalPath params user filename));
                      CalledBack Null
                        (Val {| name := newFilename; tag := "file";
                                size := None |})] |})).
Proof.
  split.
  - intros e Hmk. exec. answer Hmk. reflexivity.
  - intros w2 w3 Hmk Hln Hun. exec. answer Hmk. answer Hln. answer Hun.
    reflexivity.
Qed.

(** *** listDirectory *)

Lemma fold_onArrival (arrived : list Arrival) (entries : list Entry) :
  fold_left (onArrival) arrived entries
  = entries ++ map (fun a => getEntryDetails (described a)) arrived.
Proof.
  revert entries.
  induction arrived as [| a arrived IH]; intros entries; simpl;
    [now rewrite app_nil_r |].
  rewrite IH. destruct a; simpl; now rewrite <- app_assoc.
Qed.

(** X12: a listing that ends well is handed over whole and once: one entry for
    each event of the emitter, objects and directories alike, in the order
    of arrival, each with the name and the size of its descriptor and the
    tag [file] for the type [object], [folder] for any other. *)
Theorem listDirectory_entries (user : User) (dirpath : string) (w w1 : W)
  (res : Listing) :
  ls client (toSafeLocalPath params user dirpath) w = (Done res, w1) ->
  ending res = End ->
  exists entries,
    callbacks (listDirectory W client params user dirpath (observe W)) w
    = [(Null, Val entries)]
    /\ map name entries = map (fun a => m_name (described a)) (arrivals res)
    /\ map size entries = map (fun a => m_size (described a)) (arrivals res)
    /\ map tag entries
       = map (fun a => if m_type (described a) =? "object" then "file"
                       else "folder") (arrivals res).
Proof.
  intros Hls Hend.
  exists (map (fun a => getEntryDetails (described a)) (arrivals res)).
  split; [| now rewrite !map_map].
  exec. answer Hls. rewrite Hend, fold_onArrival. reflexivity.
Qed.

(** X13: a listing that ends with an error gives the caller the error only: the
    entries that arrived before it are dropped. *)
Theorem listDirectory_stream_error (user : User) (dirpath : string)
  (w w1 : W) (res : Listing) (e : Err) :
  ls client (toSafeLocalPath params user dirpath) w = (Done res, w1) ->
  ending res = StreamError e ->
  run (listDirectory W client params user dirpath (observe W)) w
  = (Returned tt,
     {| world := w1;
        trace := [Requested (Ls (toSafeLocalPath params user dirpath));
                  CalledBack (Val e) Undefined] |}).
Proof.
  intros Hls Hend. exec. answer Hls. rewrite Hend. reflexivity.
Qed.

(** X14: an error of [ls] with the code [NOTFOUND] is answered with the empty
    listing for every directory, not only for the root of the tenant. *)
Theorem listDirectory_not_found_anywhere (user : User) (dirpath : string)
  (w w1 : W) (e : Err) :
  ls client (toSafeLocalPath params user dirpath) w = (Failed e, w1) ->
  code e = "NOTFOUND" ->
  callbacks (listDirectory W client params user dirpath (observe W)) w
  = [(Null, Val [])].
Proof.
  intros Hls Hcode. exec. answer Hls. rewrite Hcode. reflexivity.
Qed.

(** X16: after any failure of [ls] the handler has called back and then goes on
    to register listeners on the emitter, which the failure left undefined:
    the handler ends with a [TypeError], and the backend was asked for the
    listing only. *)
Theorem listDirectory_failure_throws (user : User) (dirpath : string)
  (w w1 : W) (e : Err) :
  ls client (toSafeLocalPath params user dirpath) w = (Failed e, w1) ->
  outcome (listDirectory W client params user dirpath (observe W)) w
  = Threw TypeError
  /\ List.length (callbacks (listDirectory W client params user dirpath
                               (observe W)) w) = 1
  /\ requests (listDirectory W client params user dirpath (observe W)) w
     = [Ls (toSafeLocalPath params user dirpath)].
Proof.
  intros Hls.
  repeat split; exec; answer Hls;
    destruct ((code e =? "NOTFOUND") || (dirpath =? "")); reflexivity.
Qed.

(** *** startMultipartUpload *)

(** X17: startMultipartUpload hands the answer of [createUpload] to the callback
    as it is: the error alone, or the upload identifier with a null
    error. *)
Theorem startMultipartUpload_passes_answer (user : User) (w w1 : W)
  (r : Reply string) :
  createUpload client (join [basePath params; "temp0000"]) (Js.user params) w
  = (r, w1) ->
  run (startMultipartUpload W client params user (observe W)) w
  = (Returned tt,
     {| world := w1;
        trace := [Requested
                    (CreateUpload (join [basePath params; "temp0000"])
                       (Js.user params));
                  CalledBack (errOf r) (valueOf r)] |}).
Proof.
  intros Hup. exec. answer Hup. destruct r; reflexivity.
Qed.

End Operations.

(* ------------------------------------------------------------------------- *)
(** * The logger module and the key of the client *)

Section Logging.

Import Logger.

Variable Log : Type.
Variable createLogger : Props -> Log.
Variable child : Log -> Props -> Arg bool -> Result Log.

(** X18: before [createMainLogger] has run, [getLogger] with a category or with
    options throws ([mainLogger] is undefined), as the driver does when it is
    loaded first; options the caller passed have had their category set
    all the same. *)
Theorem getLogger_before_createMainLogger (category : Arg string)
  (options : Arg Props) (simple : Arg bool) :
  truthyString category = true \/ truthyObject options = true ->
  fst (getLogger Log child Undefined category options simple)
  = Threw TypeError
  /\ (forall o, options = Val o ->
                snd (getLogger Log child Undefined category options simple)
                = Val (setProp "category" category o)).
Proof.
  intros Htruthy. unfold getLogger.
  assert (Htest : negb (truthyString category) && negb (truthyObject options)
                  = false).
  { destruct Htruthy as [-> | ->]; [reflexivity | apply Bool.andb_false_r]. }
  rewrite Htest. split; [reflexivity |]. now intros o ->.
Qed.

Lemma getProp_setProp (key : string) (value : Arg string) (obj : Props) :
  getProp key (setProp key value obj) = value.
Proof.
  induction obj as [| [k v] obj IH]; simpl.
  - now rewrite String.eqb_refl.
  - destruct (k =? key) eqn:Hk; simpl; now rewrite Hk.
Qed.

Lemma getProp_setProp_other (key other : string) (value : Arg string)
  (obj : Props) :
  other <> key ->
  getProp other (setProp key value obj) = getProp other obj.
Proof.
  intros Hother. apply String.eqb_neq in Hother.
  induction obj as [| [k v] obj IH]; simpl.
  - rewrite String.eqb_sym. now rewrite Hother.
  - destruct (k =? key) eqn:Hk; simpl.
    + apply String.eqb_eq in Hk. subst k.
      rewrite String.eqb_sym. now rewrite Hother.
    + now rewrite IH.
Qed.

(** X19: once the main logger exists, [getLogger] with a category or options
    asks the logger that was created with the name [MantaBox], whatever the
    configuration was, for a child.  The options of that call carry the
    category of the call, also over a category the caller had put there, and
    every other property as the caller gave it.  The result is the child
    when [child] returns one, and the exception of [child] when it throws. *)
Theorem getLogger_child_category (config : Props) (category : Arg string)
  (options : Arg Props) (simple : Arg bool) :
  truthyString category = true \/ truthyObject options = true ->
  exists bound,
    fst (getLogger Log child (createMainLogger Log createLogger config)
           category options simple)
    = match child (createLogger [("name", Val "MantaBox")]) bound simple with
      | Returned derived => Returned (Val derived)
      | Threw x => Threw x
      end
    /\ getProp "category" bound = category
    /\ (forall o k, options = Val o -> k <> "category" ->
                    getProp k bound = getProp k o).
Proof.
  intros Htruthy. unfold getLogger, createMainLogger.
  assert (Htest : negb (truthyString category) && negb (truthyObject options)
                  = false).
  { destruct Htruthy as [-> | ->]; [reflexivity | apply Bool.andb_false_r]. }
  rewrite Htest.
  exists (setProp "category" category
            match options with Val o => o | _ => [] end).
  split; [| split].
  - destruct (child _ _ simple); reflexivity.
  - apply getProp_setProp.
  - intros o k -> Hk. now apply getProp_setProp_other.
Qed.

End Logging.

Section ClientKey.

Import Setup.

Variable decode : string -> string.
Variable readFileSync : Arg string -> KeyResult.

(** X20: a non-empty [key64] decides the key: when it decodes to a non-empty
    string that string is the key, whatever [key] and [keyStore] are; when it
    decodes to the empty string the key store is read, also when a [key] was
    given. *)
Theorem chooseKey_key64_first (encoded : string) (given store : Arg string) :
  encoded <> "" ->
  (decode encoded <> "" ->
   chooseKey decode readFileSync
     {| key64 := Val encoded; key := given; keyStore := store |}
   = Chosen (decode encoded))
  /\ (decode encoded = "" ->
      chooseKey decode readFileSync
        {| key64 := Val encoded; key := given; keyStore := store |}
      = readFileSync store).
Proof.
  intros Hencoded. apply String.eqb_neq in Hencoded.
  unfold chooseKey, keyAfterDecoding. simpl. rewrite Hencoded. simpl.
  split; intros Hdecoded.
  - apply String.eqb_neq in Hdecoded. now rewrite Hdecoded.
  - now rewrite Hdecoded.
Qed.

(** Without [key64], a non-empty [key] is the key and the key store is not
    read; with neither, the key is what reading the key store gives, its
    exception included. *)
Lemma chooseKey_without_key64 (absent given store : Arg string) :
  Logger.truthyString absent = false ->
  (forall k, given = Val k -> k <> "" ->
             chooseKey decode readFileSync
               {| key64 := absent; key := given; keyStore := store |}
             = Chosen k)
  /\ (Logger.truthyString given = false ->
      chooseKey decode readFileSync
        {| key64 := absent; key := given; keyStore := store |}
      = readFileSync store).
Proof.
  intros Habsent.
  assert (Hkey : keyAfterDecoding decode
                   {| key64 := absent; key := given; keyStore := store |}
                 = given).
  { unfold keyAfterDecoding. simpl.
    destruct absent as [| | encoded]; try reflexivity.
    simpl in Habsent. now rewrite Habsent. }
  unfold chooseKey. rewrite Hkey. simpl. split.
  - intros k -> Hk. apply String.eqb_neq in Hk. now rewrite Hk.
  - intros Hgiven. destruct given as [| | k]; try reflexivity.
    simpl in Hgiven. now rewrite Hgiven.
Qed.

End ClientKey.

(* ------------------------------------------------------------------------- *)
(** * The further properties on the in-memory backend *)

Section MoreRuns.

Import MemStore Scenario Cases.

Lemma toSafeLocalPath_never_leaves_account_witness :
  Shape.withinAccount "base" tenant
    (toSafeLocalPath params tenant "docs/../../..") = true
  /\ (Design.withinTenant "base" tenant
        (toSafeLocalPath params tenant "docs/../../..") = false
      <-> safeFilename "docs/../../.." = "..").
Proof.
  exact (toSafeLocalPath_never_leaves_account params tenant "docs/../../.."
           eq_refl eq_refl).
Defined.

Lemma toSafeLocalPath_separates_accounts_witness :
  account_id tenant = account_id sibling
  /\ (app_id tenant = app_id sibling
      \/ (safeFilename ".." = ".." /\ safeFilename "x/../../.." = "..")).
Proof.
  exact (toSafeLocalPath_separates_accounts params tenant sibling
           ".." "x/../../.." eq_refl eq_refl eq_refl eq_refl eq_refl).
Defined.

Lemma toSafeLocalPath_plain_input_witness :
  Path.pathSegments (toSafeLocalPath params tenant "/notes//./todo.txt")
  = ["base"; "AB12CD34EF5678"; "app1"; "notes"; "todo.txt"]
  /\ Path.pathSegments (toSafeLocalPath params tenant "./")
     = ["base"; "AB12CD34EF5678"; "app1"].
Proof.
  split.
  - exact (toSafeLocalPath_plain_input params tenant "/notes//./todo.txt"
             eq_refl eq_refl eq_refl).
  - exact (toSafeLocalPath_plain_input params tenant "./"
             eq_refl eq_refl eq_refl).
Defined.

Lemma writes_create_parent_in_tenant_witness :
  hd_error (requests
              (putObject World backend params tenant "archive/2024/done.txt"
                 (observe World)) populated)
  = Some (Mkdirp "base/AB12CD34EF5678/app1/archive/2024")
  /\ Path.pathSegments "base/AB12CD34EF5678/app1/archive/2024"
     = ["base"; "AB12CD34EF5678"; "app1"; "archive"; "2024"].
Proof.
  assert (Hnamed : Path.pathSegments "archive/2024/done.txt" <> [])
    by discriminate.
  destruct (writes_create_parent_in_tenant World backend params tenant
              "notes/todo.txt" "archive/2024/done.txt" populated
              eq_refl eq_refl eq_refl Hnamed) as (Hput & _ & _ & Hsegs).
  split; [exact Hput | exact Hsegs].
Defined.

Lemma createDirectory_steps_witness :
  callbacks (createDirectory World backend params tenant "drafts"
               (observe World)) mkdirpDraftsFails
  = [(Val internalError, Undefined)]
  /\ callbacks (createDirectory World backend params tenant "drafts"
                  (observe World)) populated
     = [(Null, Val {| name := "drafts"; tag := "folder"; size := None |})]
  /\ exists_at draftsDir
       (finalWorld (createDirectory World backend params tenant "drafts"
                      (observe World)) populated) = true.
Proof.
  unfold callbacks, finalWorld.
  erewrite (proj1 (createDirectory_steps World backend params tenant "drafts"
                     mkdirpDraftsFails mkdirpDraftsFails))
    by reflexivity.
  erewrite (proj2 (createDirectory_steps World backend params tenant "drafts"
                     populated _))
    by reflexivity.
  vm_compute. auto.
Defined.

Lemma putObject_steps_witness :
  requests (putObject World backend params tenant "archive/done.txt"
              (observe World)) mkdirpFails
  = [Mkdirp archiveDir]
  /\ callbacks (putObject World backend params tenant "archive/done.txt"
                  (observe World)) mkdirpFails
     = [(Val internalError, Undefined)]
  /\ callbacks (putObject World backend params tenant "archive/done.txt"
                  (observe World)) populated
     = [(Null, Val {| target := donePath |})].
Proof.
  unfold requests, callbacks.
  erewrite (proj1 (putObject_steps World backend params tenant
                     "archive/done.txt" mkdirpFails mkdirpFails))
    by reflexivity.
  erewrite (proj2 (putObject_steps World backend params tenant
                     "archive/done.txt" populated _))
    by reflexivity.
  vm_compute. auto.
Defined.

Lemma copyObject_steps_witness :
  callbacks (copyObject World backend params tenant "notes/todo.txt"
               "archive/done.txt" (observe World)) mkdirpFails
  = [(Val internalError, Undefined)]
  /\ callbacks (copyObject World backend params tenant "notes/todo.txt"
                  "archive/done.txt" (observe World)) linkFails
     = [(Val internalError, Undefined)]
  /\ callbacks (copyObject World backend params tenant "notes/todo.txt"
                  "archive/done.txt" (observe World)) populated
     = [(Null, Val {| name := "archive/done.txt"; tag := "file";
                      size := None |})]
  /\ exists_at todoPath
       (finalWorld (copyObject World backend params tenant "notes/todo.txt"
                      "archive/done.txt" (observe World)) populated) = true.
Proof.
  unfold callbacks, finalWorld.
  erewrite (proj1 (copyObject_steps World backend params tenant
                     "notes/todo.txt" "archive/done.txt" mkdirpFails
                     mkdirpFails))
    by reflexivity.
  erewrite (proj1 (proj2 (copyObject_steps World backend params tenant
                            "notes/todo.txt" "archive/done.txt" linkFails _)))
    by reflexivity.
  erewrite (proj2 (proj2 (copyObject_steps World backend params tenant
                            "notes/todo.txt" "archive/done.txt" populated _)))
    by reflexivity.
  vm_compute. auto.
Defined.

Lemma moveObject_steps_witness :
  requests moveTodo mkdirpFails = [Mkdirp archiveDir]
  /\ callbacks moveTodo populated
     = [(Null, Val {| name := "archive/done.txt"; tag := "file";
                      size := None |})]
  /\ exists_at todoPath (finalWorld moveTodo populated) = false
  /\ exists_at donePath (finalWorld moveTodo populated) = true.
Proof.
  unfold requests, callbacks, finalWorld, moveTodo.
  erewrite (proj1 (moveObject_steps World backend params tenant
                     "notes/todo.txt" "archive/done.txt" mkdirpFails
                     mkdirpFails))
    by reflexivity.
  erewrite (proj2 (moveObject_steps World backend params tenant
                     "notes/todo.txt" "archive/done.txt" populated _))
    by reflexivity.
  vm_compute. auto.
Defined.

Lemma listDirectory_entries_witness :
  exists entries,
    callbacks (listDirectory World backend params tenant "notes"
                 (observe World)) populated
    = [(Null, Val entries)]
    /\ map name entries = ["todo.txt"]
    /\ map size entries = [Some 8]
    /\ map tag entries = ["file"].
Proof.
  exact (listDirectory_entries World backend params tenant "notes"
           populated populated _ eq_refl eq_refl).
Defined.

Lemma listDirectory_stream_error_witness :
  callbacks (listDirectory World (listing (Done broken)) params tenant "notes"
               (observe World)) populated
  = [(Val timeout, Undefined)].
Proof.
  unfold callbacks.
  erewrite (listDirectory_stream_error World (listing (Done broken)) params
              tenant "notes" populated populated broken timeout)
    by reflexivity.
  reflexivity.
Defined.

Lemma listDirectory_not_found_anywhere_witness :
  callbacks (listDirectory World backend params tenant "notes"
               (observe World)) lsNotesNotFound
  = [(Null, Val [])].
Proof.
  exact (listDirectory_not_found_anywhere World backend params tenant "notes"
           lsNotesNotFound lsNotesNotFound dnsNotFound eq_refl eq_refl).
Defined.

Lemma listDirectory_other_error_propagates_witness :
  callbacks (listDirectory World backend params tenant "notes"
               (observe World)) lsNotesFails
  = [(Val internalError, Undefined)].
Proof.
  apply (listDirectory_other_error_propagates World backend params tenant
           "notes" lsNotesFails lsNotesFails internalError eq_refl);
    discriminate.
Defined.

Lemma listDirectory_failure_throws_witness :
  outcome (listDirectory World backend params tenant "notes"
             (observe World)) lsNotesFails
  = Threw TypeError
  /\ List.length (callbacks (listDirectory World backend params tenant
                               "notes" (observe World)) lsNotesFails) = 1
  /\ requests (listDirectory World backend params tenant "notes"
                 (observe World)) lsNotesFails
     = [Ls notesDir].
Proof.
  exact (listDirectory_failure_throws World backend params tenant "notes"
           lsNotesFails lsNotesFails internalError eq_refl).
Defined.

Lemma startMultipartUpload_passes_answer_witness :
  callbacks (startMultipartUpload World backend params tenant
               (observe World)) populated
  = [(Null, Val "upload-0001")]
  /\ callbacks (startMultipartUpload World backend params otherTenant
                  (observe World)) uploadFails
     = [(Val internalError, Undefined)].
Proof.
  unfold callbacks.
  erewrite (startMultipartUpload_passes_answer World backend params tenant
              populated populated (Done "upload-0001"))
    by reflexivity.
  erewrite (startMultipartUpload_passes_answer World backend params
              otherTenant uploadFails uploadFails (Failed internalError))
    by reflexivity.
  split; reflexivity.
Defined.

Lemma getLogger_before_createMainLogger_witness :
  fst (Logger.getLogger Logger.Props Logger.fieldsChild Undefined
         (Val "manta-driver") Undefined Undefined)
  = Threw TypeError.
Proof.
  apply (getLogger_before_createMainLogger Logger.Props Logger.fieldsChild
           (Val "manta-driver") Undefined Undefined).
  left. reflexivity.
Defined.

Lemma getLogger_child_category_witness :
  exists bound,
    fst (Logger.getLogger Logger.Props Logger.fieldsChild
           (Logger.createMainLogger Logger.Props Logger.fieldsLogger [])
           (Val "manta-driver") (Val [("category", Val "mine")]) Undefined)
    = match Logger.fieldsChild [("name", Val "MantaBox")] bound Undefined with
      | Returned derived => Returned (Val derived)
      | Threw x => Threw x
      end
    /\ Logger.getProp "category" bound = Val "manta-driver"
    /\ (forall o k, Val [("category", Val "mine")] = Val o ->
                    k <> "category" ->
                    Logger.getProp k bound = Logger.getProp k o).
Proof.
  apply (getLogger_child_category Logger.Props Logger.fieldsLogger
           Logger.fieldsChild [] (Val "manta-driver")
           (Val [("category", Val "mine")]) Undefined).
  left. reflexivity.
Defined.

(** The two ways of that call on the bunyan of the examples: a child that
    binds the category of the call, and the refusal of options that carry a
    name. *)
Example getLogger_child_runs :
  fst (Logger.getLogger Logger.Props Logger.fieldsChild
         (Logger.createMainLogger Logger.Props Logger.fieldsLogger [])
         (Val "manta-driver") (Val [("category", Val "mine")]) Undefined)
  = Returned (Val [("name", Val "MantaBox");
                   ("category", Val "manta-driver")])
  /\ fst (Logger.getLogger Logger.Props Logger.fieldsChild
            (Logger.createMainLogger Logger.Props Logger.fieldsLogger [])
            (Val "manta-driver") (Val [("name", Val "other")]) Undefined)
     = Threw TypeError.
Proof. split; reflexivity. Qed.

Lemma chooseKey_key64_first_witness :
  Setup.chooseKey Setup.dropPadding Setup.oneKeyFile
    {| Setup.key64 := Val "S0VZ"; Setup.key := Val "PEM";
       Setup.keyStore := Val "/keys/id_rsa" |}
  = Setup.Chosen "S0VZ"
  /\ Setup.chooseKey Setup.dropPadding Setup.oneKeyFile
       {| Setup.key64 := Val "=="; Setup.key := Val "PEM";
          Setup.keyStore := Val "/keys/id_rsa" |}
     = Setup.Chosen "KEY-FROM-FILE".
Proof.
  split.
  - apply (chooseKey_key64_first Setup.dropPadding Setup.oneKeyFile "S0VZ"
             (Val "PEM") (Val "/keys/id_rsa")); discriminate.
  - apply (chooseKey_key64_first Setup.dropPadding Setup.oneKeyFile "=="
             (Val "PEM") (Val "/keys/id_rsa")); [discriminate | reflexivity].
Defined.

End MoreRuns.
